(** * Edge-identity orchestrator: public IP, domain aliases, DNS sync, tunnel log

    A shallow embedding of the service layer under [src/app/services]
    ([domain_aliases.py], [settings.py], [public_ip.py], [cloudflare_dns.py],
    [cloudflare_ssl.py], [cloudflare_tunnel.py], [process_runner.py]) together
    with the tables of [src/app/database.py] they read and write.

    Conventions of the embedding.
    - Python [str] is [string]; the text handled by these services (host names,
      labels, shell words) is ASCII, and the character classes below are the
      ASCII part of Python's ([str.isspace], [str.lower], [\w]).
    - The relational store, the entropy source, the HTTP peer and the process
      table are explicit state, threaded through every operation.
    - A raised exception is the left injection of a sum; each raise site of
      the source has its own constructor. *)

From stdpp Require Import gmap strings list sorting.
From Stdlib Require Import Ascii String ZArith Lia.

Local Open Scope string_scope.

#[local] Set Warnings "-clear-no-such-hyp".

(** ** Python string primitives *)

Module PyStr.

(** [str.isspace] on ASCII: TAB..CR, FS..US and the blank. *)
Definition is_space (c : ascii) : bool :=
  let n := nat_of_ascii c in
  ((9 <=? n)%nat && (n <=? 13)%nat) || ((28 <=? n)%nat && (n <=? 32)%nat).

Definition is_upper (c : ascii) : bool :=
  let n := nat_of_ascii c in (65 <=? n)%nat && (n <=? 90)%nat.

Definition is_lower (c : ascii) : bool :=
  let n := nat_of_ascii c in (97 <=? n)%nat && (n <=? 122)%nat.

Definition is_digit (c : ascii) : bool :=
  let n := nat_of_ascii c in (48 <=? n)%nat && (n <=? 57)%nat.

Definition lower_char (c : ascii) : ascii :=
  if is_upper c then ascii_of_nat (nat_of_ascii c + 32) else c.

(** [s.lower()] *)
Fixpoint lower (s : string) : string :=
  match s with
  | "" => ""
  | String c s' => String (lower_char c) (lower s')
  end.

(** [s.lstrip()] *)
Fixpoint lstrip (s : string) : string :=
  match s with
  | "" => ""
  | String c s' => if is_space c then lstrip s' else s
  end.

(** [s.rstrip()] *)
Fixpoint rstrip (s : string) : string :=
  match s with
  | "" => ""
  | String c s' =>
      match rstrip s' with
      | "" => if is_space c then "" else String c ""
      | r => String c r
      end
  end.

(** [s.strip()] *)
Definition strip (s : string) : string := rstrip (lstrip s).

(** [s.replace(a, b)] for one-character [a] and [b]. *)
Fixpoint replace_char (a b : ascii) (s : string) : string :=
  match s with
  | "" => ""
  | String c s' => String (if Ascii.eqb c a then b else c) (replace_char a b s')
  end.

(** Keep the characters satisfying [keep]: [re.sub] of the complement
    class with the empty string. *)
Fixpoint keep_chars (keep : ascii -> bool) (s : string) : string :=
  match s with
  | "" => ""
  | String c s' => if keep c then String c (keep_chars keep s') else keep_chars keep s'
  end.

(** [a in s] for a one-character [a]. *)
Fixpoint contains_char (a : ascii) (s : string) : bool :=
  match s with
  | "" => false
  | String c s' => Ascii.eqb c a || contains_char a s'
  end.

(** [s.split(a, 1)[0]]: the text before the first [a]. *)
Fixpoint before_first (a : ascii) (s : string) : string :=
  match s with
  | "" => ""
  | String c s' => if Ascii.eqb c a then "" else String c (before_first a s')
  end.

(** [s.split(a)]: never empty, [''.split(a) == ['']]. *)
Fixpoint split (a : ascii) (s : string) : list string :=
  match s with
  | "" => [""]
  | String c s' =>
      if Ascii.eqb c a then "" :: split a s'
      else match split a s' with
           | [] => [String c ""]
           | h :: t => String c h :: t
           end
  end.

(** [sep.join(parts)] *)
Fixpoint join (sep : string) (parts : list string) : string :=
  match parts with
  | [] => ""
  | [p] => p
  | p :: rest => p ++ sep ++ join sep rest
  end.

(** Match [pat] at the start of [s] ignoring ASCII case; the remainder. *)
Fixpoint drop_prefix_ci (pat s : string) : option string :=
  match pat, s with
  | "", _ => Some s
  | String p pat', String c s' =>
      if Ascii.eqb (lower_char p) (lower_char c) then drop_prefix_ci pat' s' else None
  | String _ _, "" => None
  end.

(** Every character of [s] satisfies [p]. *)
Fixpoint all_chars (p : ascii -> bool) (s : string) : bool :=
  match s with
  | "" => true
  | String c s' => p c && all_chars p s'
  end.

(** Truthiness of a [str]. *)
Definition truthy (s : string) : bool := negb (String.eqb s "").

End PyStr.

(** Character classes used to state facts about the primitives. *)
Definition not_space (c : ascii) : bool := negb (PyStr.is_space c).
Definition not_upper (c : ascii) : bool := negb (PyStr.is_upper c).
Definition not_char (a c : ascii) : bool := negb (Ascii.eqb c a).
Definition alnum_lower (c : ascii) : bool := PyStr.is_lower c || PyStr.is_digit c.

(** A string that is empty or starts with a non-blank. *)
Definition starts_clean (s : string) : bool :=
  match s with
  | "" => true
  | String c _ => negb (PyStr.is_space c)
  end.

(** ** [domain_aliases.py]: normalisation *)

(** [_SUBDOMAIN_SANITIZER = re.compile(r"[^a-z0-9-]")]: the kept class. *)
Definition subdomain_char (c : ascii) : bool :=
  PyStr.is_lower c || PyStr.is_digit c || Ascii.eqb c "-".

(** [_SCHEME_PREFIX.sub("", s)] with [^https?://] and [re.IGNORECASE]. *)
Definition strip_scheme (s : string) : string :=
  match PyStr.drop_prefix_ci "https://" s with
  | Some rest => rest
  | None =>
      match PyStr.drop_prefix_ci "http://" s with
      | Some rest => rest
      | None => s
      end
  end.

Definition _normalize_domain (value : string) : string :=
  let cleaned := PyStr.lower (PyStr.strip value) in
  let cleaned := strip_scheme cleaned in
  if PyStr.contains_char "/" cleaned then PyStr.before_first "/" cleaned else cleaned.

Definition _normalize_subdomain (value : option string) : string :=
  let cleaned := PyStr.replace_char " " "-" (PyStr.lower (PyStr.strip (default "" value))) in
  PyStr.keep_chars subdomain_char cleaned.

(** ** [database.py]: the tables behind the services *)

(** A row of [domain_aliases]. *)
Record alias_row := {
  alias_id : string;
  base_domain : string;
  subdomain : string;
  masked_subdomain : string;
  created_at : nat
}.

(** A row of [cloudflared_logs]. *)
Record log_row := {
  log_id : nat;
  command : string;
  stdout : string;
  stderr : string;
  status : string;
  logged_at : nat
}.

(** The store: [app_settings] maps a key to a nullable value, the two other
    tables keep their rows in insertion order; [log_seq] is the
    AUTOINCREMENT counter and [clock] the store's CURRENT_TIMESTAMP. *)
Record database := {
  app_settings : gmap string (option string);
  cloudflared_logs : list log_row;
  domain_aliases : list alias_row;
  log_seq : nat;
  clock : nat
}.

Definition with_settings (t : gmap string (option string)) (d : database) : database :=
  {| app_settings := t; cloudflared_logs := cloudflared_logs d;
     domain_aliases := domain_aliases d; log_seq := log_seq d; clock := clock d |}.

Definition with_aliases (rows : list alias_row) (d : database) : database :=
  {| app_settings := app_settings d; cloudflared_logs := cloudflared_logs d;
     domain_aliases := rows; log_seq := log_seq d; clock := clock d |}.

(** Exceptions raised by the alias registry and the tunnel manager. *)
Inductive exn :=
  | ValueError (msg : string)
  | RuntimeError (msg : string)
  | IntegrityError
  | TimeoutExpired
  | OSError.

(** [INSERT INTO domain_aliases]: the primary key on [id] and the unique
    indexes [idx_domain_alias_masked] on [(masked_subdomain)] and
    [idx_domain_alias_real] on [(base_domain, subdomain)] reject the row. *)
Definition alias_conflict (r x : alias_row) : bool :=
  bool_decide (alias_id x = alias_id r)
  || bool_decide (masked_subdomain x = masked_subdomain r)
  || (bool_decide (base_domain x = base_domain r) && bool_decide (subdomain x = subdomain r)).

Definition insert_alias (r : alias_row) (d : database) : exn + database :=
  if existsb (alias_conflict r) (domain_aliases d) then inl IntegrityError
  else inr (with_aliases (domain_aliases d ++ [r]) d).

(** [SELECT ... FROM domain_aliases WHERE id=?] through [fetch_one]. *)
Definition fetch_alias (id : string) (d : database) : option alias_row :=
  find (fun x => bool_decide (alias_id x = id)) (domain_aliases d).

(** [DELETE FROM domain_aliases WHERE id=?] *)
Definition delete_alias (id : string) (d : database) : database :=
  with_aliases (filter (fun x => alias_id x ≠ id) (domain_aliases d)) d.

(** ** [settings.py] *)

(** [DEFAULT_SETTINGS]; [public_ip] is [os.getenv("SERVER_PUBLIC_IP", "")]. *)
Definition DEFAULT_SETTINGS (server_public_ip : string) : gmap string string :=
  <["site_name" := "Sanex Group"]>
  (<["local_ip" := "127.0.0.1"]>
  (<["public_ip" := server_public_ip]>
  (<["ssl_hosts" := "sanexgroup.com"]> ∅))).

(** The defaults overlaid with every stored non-NULL value. *)
Definition get_settings (env_ip : string) (d : database) : gmap string string :=
  omap id (app_settings d) ∪ DEFAULT_SETTINGS env_ip.

(** One upsert per pair, in order. *)
Definition update_settings (updates : list (string * string)) (d : database) : database :=
  with_settings
    (fold_left (fun t kv => <[kv.1 := Some kv.2]> t) updates (app_settings d)) d.

(** ** The entropy source behind [secrets] and [uuid] *)

(** [draws] is the sequence the operating system hands out, [cursor] the
    number of draws taken so far. *)
Record entropy := { draws : nat -> nat; cursor : nat }.

Definition draw (e : entropy) : nat * entropy :=
  (draws e (cursor e), {| draws := draws e; cursor := S (cursor e) |}).

(** [_RANDOM_ALPHABET = string.ascii_lowercase + string.digits] *)
Definition _RANDOM_ALPHABET : string := "abcdefghijklmnopqrstuvwxyz0123456789".

(** [secrets.choice(_RANDOM_ALPHABET)] *)
Definition choice (e : entropy) : ascii * entropy :=
  let (n, e') := draw e in
  (default "a"%char (String.get (n mod 36) _RANDOM_ALPHABET), e').

Fixpoint choices (n : nat) (e : entropy) : string * entropy :=
  match n with
  | O => ("", e)
  | S n' =>
      let (c, e1) := choice e in
      let (s, e2) := choices n' e1 in
      (String c s, e2)
  end.

Definition generate_masked_subdomain (length : Z) (e : entropy) : string * entropy :=
  choices (Z.to_nat (Z.max 8 length)) e.

Definition hex_digit (n : nat) : ascii :=
  default "0"%char (String.get (n mod 16) "0123456789abcdef").

Definition hex_byte (b : nat) : string :=
  String (hex_digit (b / 16)) (String (hex_digit b) "").

(** [uuid.uuid4().hex]: sixteen random bytes, the version nibble forced to 4
    and the variant bits to 10. *)
Fixpoint uuid_bytes (i n : nat) (e : entropy) : string * entropy :=
  match n with
  | O => ("", e)
  | S n' =>
      let (r, e1) := draw e in
      let b := r mod 256 in
      let b := if (i =? 6)%nat then b mod 16 + 64
               else if (i =? 8)%nat then b mod 64 + 128 else b in
      let (s, e2) := uuid_bytes (S i) n' e1 in
      (hex_byte b ++ s, e2)
  end.

Definition uuid4_hex (e : entropy) : string * entropy := uuid_bytes 0 16 e.

(** ** [domain_aliases.py]: the registry *)

Definition _join_host (subdomain base_domain : string) : string :=
  let subdomain := PyStr.strip subdomain in
  if negb (PyStr.truthy subdomain) then base_domain
  else if PyStr.truthy base_domain then subdomain ++ "." ++ base_domain else subdomain.

Definition _host_to_url (host : string) : string :=
  if PyStr.truthy host then "https://" ++ host else "".

(** The decorated dictionary returned to the caller. *)
Record alias_view := {
  row : alias_row;
  target_host : string;
  masked_host : string;
  target_url : string;
  masked_url : string
}.

(** [None] stands for the empty dictionary returned for a missing row. *)
Definition _decorate_alias_row (r : option alias_row) : option alias_view :=
  match r with
  | None => None
  | Some r =>
      let target := _join_host (subdomain r) (base_domain r) in
      let masked := _join_host (masked_subdomain r) (base_domain r) in
      Some {| row := r; target_host := target; masked_host := masked;
              target_url := _host_to_url target; masked_url := _host_to_url masked |}
  end.

Definition _masked_exists (base masked : string) (d : database) : bool :=
  existsb (fun x => bool_decide (base_domain x = base)
                    && bool_decide (masked_subdomain x = masked))
          (domain_aliases d).

(** The comma-separated host list of a setting value, as the services read
    it: blank items dropped, the others trimmed and lowercased. *)
Definition parse_hosts (value : string) : list string :=
  map (fun item => PyStr.lower (PyStr.strip item))
      (List.filter (fun item => PyStr.truthy item && PyStr.truthy (PyStr.strip item))
                   (PyStr.split "," value)).

(** The loop of [_sync_ssl_hosts] over the new hosts. *)
Fixpoint merge_hosts (hosts : list string) (current : gset string) (changed : bool)
  : gset string * bool :=
  match hosts with
  | [] => (current, changed)
  | host :: rest =>
      if decide (host ∈ current) then merge_hosts rest current changed
      else merge_hosts rest ({[host]} ∪ current) true
  end.

Definition _sync_ssl_hosts (env_ip : string) (hosts : list string) (d : database) : database :=
  let normalized_hosts :=
    map (fun host => PyStr.lower (PyStr.strip host)) (List.filter PyStr.truthy hosts) in
  match normalized_hosts with
  | [] => d
  | _ =>
      let settings := get_settings env_ip d in
      let current_hosts : gset string :=
        list_to_set (parse_hosts (default "" (settings !! "ssl_hosts"))) in
      let (current_hosts, changed) := merge_hosts normalized_hosts current_hosts false in
      if changed
      then update_settings
             [("ssl_hosts", PyStr.join ", " (merge_sort String.le (elements current_hosts)))] d
      else d
  end.

(** The state the registry runs against. *)
Record registry := { store : database; rng : entropy }.

Definition MSG_BASE_DOMAIN : string := "Geçerli bir ana domain girin (ör. sanexgroup.com).".
Definition MSG_NO_UNIQUE_MASK : string :=
  "Benzersiz bir maskelenmiş subdomain üretilemedi. Lütfen tekrar deneyin.".

(** The two failures of the registry in the vocabulary of the design. *)
Definition AliasValidationError : exn := ValueError MSG_BASE_DOMAIN.
Definition AliasCollisionError : exn := ValueError MSG_NO_UNIQUE_MASK.

(** [while _masked_exists(base, masked) and attempts < 5], by the number of
    attempts left. *)
Fixpoint regenerate (left : nat) (base masked : string) (d : database) (e : entropy)
  : string * entropy :=
  match left with
  | O => (masked, e)
  | S left' =>
      if _masked_exists base masked d
      then let (masked', e') := generate_masked_subdomain 24 e in
           regenerate left' base masked' d e'
      else (masked, e)
  end.

(** The label the caller supplied, normalised; empty when none was given. *)
Definition supplied_label (masked_subdomain : option string) : string :=
  match masked_subdomain with
  | Some m => if PyStr.truthy m then _normalize_subdomain (Some m) else ""
  | None => ""
  end.

(** The candidate before any collision check: the supplied label, or a
    generated one when that is empty. *)
Definition first_candidate (masked_subdomain : option string) (e : entropy)
  : string * entropy :=
  let masked := supplied_label masked_subdomain in
  if negb (PyStr.truthy masked) then generate_masked_subdomain 24 e else (masked, e).

(** The tail of [create_alias] once a free label is settled: mint the
    identifier, insert the row, propagate the two hosts, read the row back. *)
Definition persist_alias (env_ip base real_subdomain masked : string)
    (d : database) (e : entropy) : (exn + option alias_view) * registry :=
  let (id, e) := uuid4_hex e in
  match insert_alias {| alias_id := id; base_domain := base;
                        subdomain := real_subdomain; masked_subdomain := masked;
                        created_at := clock d |} d with
  | inl err => (inl err, {| store := d; rng := e |})
  | inr d' =>
      let d' := _sync_ssl_hosts env_ip
                  [_join_host real_subdomain base; _join_host masked base] d' in
      (inr (_decorate_alias_row (fetch_alias id d')), {| store := d'; rng := e |})
  end.

Definition create_alias (env_ip : string) (base_domain subdomain : string)
    (masked_subdomain : option string) (st : registry) : (exn + option alias_view) * registry :=
  let base := _normalize_domain base_domain in
  if negb (PyStr.truthy base) then (inl AliasValidationError, st)
  else
    let real_subdomain := _normalize_subdomain (Some subdomain) in
    let (masked, e) := first_candidate masked_subdomain (rng st) in
    let (masked, e) :=
      if _masked_exists base masked (store st)
      then regenerate 5 base masked (store st) e
      else (masked, e) in
    if _masked_exists base masked (store st)
    then (inl AliasCollisionError, {| store := store st; rng := e |})
    else persist_alias env_ip base real_subdomain masked (store st) e.

(** *** Vocabulary for the registry's properties *)

(** The source after [n] further draws. *)
Definition skip (n : nat) (e : entropy) : entropy :=
  {| draws := draws e; cursor := cursor e + n |}.

(** The [k]-th label generated from [e] on, twenty-four draws each. *)
Definition label_after (k : nat) (e : entropy) : string :=
  (generate_masked_subdomain 24 (skip (24 * k) e)).1.

(** The labels tried in turn: the candidate, then the regenerated ones. *)
Definition attempt (cand : string) (e : entropy) (k : nat) : string :=
  match k with
  | O => cand
  | S j => label_after j e
  end.

(** The [(base_domain, masked_subdomain)] pairs of the alias table. *)
Definition masked_pairs (d : database) : list (string * string) :=
  map (fun x => (base_domain x, masked_subdomain x)) (domain_aliases d).

(** The host list held by the [ssl_hosts] setting, as a set. *)
Definition host_set (env_ip : string) (d : database) : gset string :=
  list_to_set (parse_hosts (default "" (get_settings env_ip d !! "ssl_hosts"))).

(** The form under which [_sync_ssl_hosts] files a host. *)
Definition filed_host (host : string) : string := PyStr.lower (PyStr.strip host).

(** A small store and entropy source to run the registry on. *)
Definition demo_rng : entropy := {| draws := fun i => i * 7 + 3; cursor := 0 |}.
Definition demo_db : database :=
  {| app_settings := ∅; cloudflared_logs := []; domain_aliases := [];
     log_seq := 0; clock := 0 |}.
Definition demo_reg : registry := {| store := demo_db; rng := demo_rng |}.

(** A store in which the six labels that [demo_rng] yields in turn are all
    taken under [example.com]. *)
Definition crowded_db : database :=
  with_aliases
    (map (fun k =>
            let label := attempt (first_candidate None demo_rng).1
                                 (first_candidate None demo_rng).2 k in
            {| alias_id := "id-" ++ label; base_domain := "example.com";
               subdomain := "real-" ++ label; masked_subdomain := label;
               created_at := k |})
         (seq 0 6))
    demo_db.

(** A host as the setting stores it: non-empty, trimmed, lowercased and
    free of commas. *)
Definition clean_host (x : string) : Prop :=
  x <> "" /\ PyStr.strip x = x /\ PyStr.lower x = x
  /\ PyStr.all_chars (not_char ",") x = true.

(** ** [public_ip.py] *)

(** A JSON value as the resolver observes it: its truthiness and [str()]. *)
Record pyvalue := { py_truthy : bool; py_str : string }.

(** What [response.json()] yields: a falsy document ([null], [{}], [[]],
    [0], the empty string, [false]), a non-empty object, or a truthy
    document that is not an object. *)
Inductive json_data :=
  | JFalsy
  | JObject (fields : list (string * pyvalue))
  | JOther.

(** The answer to one [requests.get]: the call raised, or a response with
    a status code, a text body and the outcome of parsing it as JSON
    ([None] when the body is not JSON). *)
Inductive http_reply :=
  | Unreachable (reason : string)
  | Reply (status_code : nat) (text : string) (json : option json_data).

(** The exceptions caught by the [except Exception] clause. *)
Inductive fetch_exn :=
  | RequestException (reason : string)
  | HTTPError (status_code : nat)
  | JSONDecodeError
  | AttributeError.

(** [RuntimeError(f"Public IP alınamadı: {last_error}")] *)
Inductive resolve_error :=
  | NetworkResolutionError (last_error : option fetch_exn).

Definition IP_ENDPOINTS : list (string * option string) :=
  [ ("https://api.ipify.org?format=json", Some "ip");
    ("https://ifconfig.co/json", Some "ip");
    ("https://checkip.amazonaws.com", None);
    ("https://ipv4.icanhazip.com", None) ].

(** [dict.get] on the parsed document, [data or {}] included. *)
Fixpoint dict_get (key : string) (fields : list (string * pyvalue)) : option pyvalue :=
  match fields with
  | [] => None
  | (k, v) :: rest => if String.eqb k key then Some v else dict_get key rest
  end.

(** The three ways the body of the loop ends for one endpoint. *)
Inductive endpoint_outcome :=
  | Returned (ip : string)
  | Raised (exc : fetch_exn)
  | FellThrough.

(** [response.raise_for_status()]: an error for 4xx and 5xx only. *)
Definition raise_for_status (status_code : nat) : bool :=
  (400 <=? status_code)%nat && (status_code <? 600)%nat.

(** The [try] block for one endpoint, given the peer's answer. *)
Definition try_endpoint (field : option string) (reply : http_reply) : endpoint_outcome :=
  match reply with
  | Unreachable reason => Raised (RequestException reason)
  | Reply status_code text json =>
      if raise_for_status status_code then Raised (HTTPError status_code)
      else
        match field with
        | Some f =>
            if PyStr.truthy f then
              match json with
              | None => Raised JSONDecodeError
              | Some JOther => Raised AttributeError
              | Some JFalsy => FellThrough
              | Some (JObject fields) =>
                  match dict_get f fields with
                  | Some value =>
                      if py_truthy value then Returned (PyStr.strip (py_str value))
                      else FellThrough
                  | None => FellThrough
                  end
              end
            else Returned (PyStr.strip text)
        | None => Returned (PyStr.strip text)
        end
  end.

(** The loop of [fetch_public_ip] over [endpoints], against a network that
    answers [net url] to a GET of [url]; the second component lists the
    URLs contacted, in order. *)
Fixpoint fetch_from (net : string -> http_reply) (endpoints : list (string * option string))
    (last_error : option fetch_exn) : (resolve_error + string) * list string :=
  match endpoints with
  | [] => (inl (NetworkResolutionError last_error), [])
  | (url, field) :: rest =>
      match try_endpoint field (net url) with
      | Returned ip => (inr ip, [url])
      | Raised exc =>
          let (res, urls) := fetch_from net rest (Some exc) in (res, url :: urls)
      | FellThrough =>
          let (res, urls) := fetch_from net rest last_error in (res, url :: urls)
      end
  end.

Definition fetch_public_ip (net : string -> http_reply) : (resolve_error + string) * list string :=
  fetch_from net IP_ENDPOINTS None.

(** *** Vocabulary for the resolver's properties *)

Definition outcome_of (net : string -> http_reply) (ep : string * option string)
  : endpoint_outcome :=
  try_endpoint ep.2 (net ep.1).

Definition failed (o : endpoint_outcome) : Prop :=
  match o with Returned _ => False | _ => True end.





(** ** A state-and-exception monad for the effectful services *)

Definition M (S E A : Type) : Type := S -> (E + A) * S.

Definition ret {S E A} (a : A) : M S E A := fun s => (inr a, s).

Definition raise {S E A} (e : E) : M S E A := fun s => (inl e, s).

Definition bind {S E A B} (m : M S E A) (k : A -> M S E B) : M S E B :=
  fun s => match m s with
           | (inl e, s') => (inl e, s')
           | (inr a, s') => k a s'
           end.

Notation "'let!' x ':=' m 'in' k" := (bind m (fun x => k))
  (at level 10, x name, m at level 100, k at level 200).
Notation "'run!' m 'in' k" := (bind m (fun _ => k))
  (at level 10, m at level 100, k at level 200).

(** ** [process_runner.py] *)

(** What [subprocess.run] does with an argument vector: it completes with a
    return code and the two captured streams, exceeds its timeout, or fails
    to start. *)
Inductive proc_outcome :=
  | Completed (returncode : Z) (out err : string)
  | TimedOut
  | NotStarted.

(** The dictionary returned by [run_command]. *)
Record run_result := {
  r_command : string;
  r_returncode : Z;
  r_stdout : string;
  r_stderr : string
}.

(** [shlex.quote]: the characters that need no quoting are [\w@%+=:,./-]. *)
Definition shell_safe (c : ascii) : bool :=
  PyStr.is_lower c || PyStr.is_upper c || PyStr.is_digit c
  || existsb (Ascii.eqb c) (list_ascii_of_string "_@%+=:,./-").

(** [s.replace("'", "'\"'\"'")] *)
Fixpoint escape_quotes (s : string) : string :=
  match s with
  | "" => ""
  | String c s' =>
      if Ascii.eqb c "'"
      then String "'" (String "034" (String "'" (String "034" (String "'" (escape_quotes s')))))
      else String c (escape_quotes s')
  end.

Definition shlex_quote (s : string) : string :=
  if negb (PyStr.truthy s) then "''"
  else if PyStr.all_chars shell_safe s then s
  else "'" ++ escape_quotes s ++ "'".

(** ** [cloudflare_tunnel.py] *)

(** [ORDER BY id DESC]: a row comes before the rows of smaller [id]. *)
Definition newer_first (a b : log_row) : Prop := (log_id b <= log_id a)%nat.

#[global] Instance newer_first_dec : RelDecision newer_first.
Proof. intros a b. unfold newer_first. apply _. Defined.


(** The state the tunnel manager runs against: the store, the process
    table of the host with the argument vectors launched so far, and
    whether the connector script is on disk. *)
Record tunnel_world (P : Type) := {
  t_store : database;
  t_procs : P;
  t_launched : list (list string);
  t_script_exists : bool
}.
Arguments t_store {P}.
Arguments t_procs {P}.
Arguments t_launched {P}.
Arguments t_script_exists {P}.

Definition MSG_EMPTY_TOKEN : string := "Cloudflare tunnel token boş olamaz.".
Definition MSG_NO_SCRIPT : string := "Connector script bulunamadı: ".

Section Tunnel.
(** The process table, and how it answers to an argument vector run under
    a timeout. *)
Context {P : Type}.
Variable spawn : list string -> nat -> P -> proc_outcome * P.
(** [CONNECTOR_SCRIPT], below the installation directory. *)
Variable CONNECTOR_SCRIPT : string.

Abbreviation T := (M (tunnel_world P) exn).

(** [run_command(command, timeout=120)] on a list of words. *)
Definition run_command (command : list string) (timeout : nat) : T run_result :=
  fun w =>
    let args := command in
    let (outcome, p) := spawn args timeout (t_procs w) in
    let w' := {| t_store := t_store w; t_procs := p;
                 t_launched := t_launched w ++ [args];
                 t_script_exists := t_script_exists w |} in
    match outcome with
    | Completed returncode out err =>
        (inr {| r_command := PyStr.join " " (map shlex_quote args);
                r_returncode := returncode;
                r_stdout := PyStr.strip out;
                r_stderr := PyStr.strip err |}, w')
    | TimedOut => (inl TimeoutExpired, w')
    | NotStarted => (inl OSError, w')
    end.

(** [INSERT INTO cloudflared_logs (command, stdout, stderr, status)] *)
Definition _store_log (command stdout stderr status : string) : T unit :=
  fun w =>
    let d := t_store w in
    let entry := {| log_id := S (log_seq d); command := command; stdout := stdout;
                    stderr := stderr; status := status; logged_at := clock d |} in
    (inr tt,
     {| t_store := {| app_settings := app_settings d;
                      cloudflared_logs := cloudflared_logs d ++ [entry];
                      domain_aliases := domain_aliases d;
                      log_seq := S (log_seq d); clock := clock d |};
        t_procs := t_procs w; t_launched := t_launched w;
        t_script_exists := t_script_exists w |}).

Definition _run_and_log (command : list string) : T run_result :=
  let! result := run_command command 120 in
  let status := if (r_returncode result =? 0)%Z then "success" else "error" in
  run! _store_log (r_command result) (r_stdout result) (r_stderr result) status in
  ret result.

Definition install_connector (token : string) : T run_result :=
  fun w =>
    if negb (PyStr.truthy token) then (inl (ValueError MSG_EMPTY_TOKEN), w)
    else if negb (t_script_exists w)
    then (inl (RuntimeError (MSG_NO_SCRIPT ++ CONNECTOR_SCRIPT)), w)
    else _run_and_log ["bash"; CONNECTOR_SCRIPT; token] w.

(** The loop of [run_status_checks]. *)
Fixpoint run_checks (commands : list (list string)) (results : list run_result)
  : T (list run_result) :=
  match commands with
  | [] => ret results
  | cmd :: rest =>
      let! result := (if bool_decide ("|" ∈ cmd)
                      then _run_and_log ["/bin/sh"; "-c"; PyStr.join " " cmd]
                      else _run_and_log cmd) in
      run_checks rest (results ++ [result])
  end.

Definition run_status_checks : T (list run_result) :=
  run_checks [ ["cloudflared"; "--version"];
               ["ps"; "-eo"; "pid,cmd"; "|"; "grep"; "cloudflared"] ] [].




End Tunnel.

(** A process table that echoes: [/bin/sh -c "echo hi"] prints [hi], every
    other command exits with code 127. *)
Definition echo_spawn (args : list string) (timeout : nat) (p : unit) : proc_outcome * unit :=
  if bool_decide (args = ["/bin/sh"; "-c"; "echo hi"])
  then (Completed 0 ("hi" ++ String "010" "") "", p)
  else (Completed 127 "" "not found", p).

Definition echo_world : tunnel_world unit :=
  {| t_store := demo_db; t_procs := tt; t_launched := []; t_script_exists := false |}.

(** ** [config.py]: the provider configuration *)

(** [CloudflareConfig]; every attribute is read from the environment when
    the module is imported. *)
Record CloudflareConfig := {
  account_id : option string;
  api_token : option string;
  auth_email : option string;
  auth_key : option string;
  zone_id : option string;
  ssl_hosts : list string
}.

(** The [ssl_hosts] attribute for a value of [CLOUDFLARE_SSL_HOSTS]. *)
Definition config_ssl_hosts (env_value : option string) : list string :=
  map PyStr.strip
      (List.filter (fun host => PyStr.truthy host && PyStr.truthy (PyStr.strip host))
                   (PyStr.split "," (default "" env_value))).

(** Truthiness of a [str | None]. *)
Definition opt_truthy (o : option string) : bool :=
  match o with
  | Some s => PyStr.truthy s
  | None => false
  end.

(** ** [cloudflare_ssl.py]: what the DNS helper borrows *)

(** [CloudflareError], and what [requests] itself may raise. *)
Inductive cf_exn :=
  | CloudflareError (msg : string)
  | TransportError (reason : string).

Definition MSG_NO_IP : string := "Geçerli bir IP adresi bulunamadı.".
Definition MSG_NO_ZONE : string := "CLOUDFLARE_ZONE_ID tanımlı değil.".
Definition MSG_NO_HOSTS : string := "Güncellenecek Cloudflare DNS host listesi bulunamadı.".
Definition MSG_NO_CREDENTIALS : string :=
  "Cloudflare API bilgileri eksik (.env dosyanızı kontrol edin).".
Definition MSG_API_FAILED : string := "Cloudflare API isteği başarısız oldu.".

(** The taxonomy of the design, by raise site. *)
Inductive error_kind := ValidationError | ConfigurationError | ProviderError | OtherError.

Definition error_kind_of (e : cf_exn) : error_kind :=
  match e with
  | CloudflareError msg =>
      if bool_decide (msg = MSG_NO_IP) || bool_decide (msg = MSG_NO_HOSTS)
      then ValidationError
      else if bool_decide (msg = MSG_NO_ZONE) || bool_decide (msg = MSG_NO_CREDENTIALS)
      then ConfigurationError
      else ProviderError
  | TransportError _ => OtherError
  end.

(** [build_headers] *)
Definition build_headers (cfg : CloudflareConfig) : cf_exn + list (string * string) :=
  let headers := [("Content-Type", "application/json")] in
  if opt_truthy (auth_email cfg) && opt_truthy (auth_key cfg)
  then inr (headers ++ [("X-Auth-Email", default "" (auth_email cfg));
                        ("X-Auth-Key", default "" (auth_key cfg))])%list
  else if opt_truthy (api_token cfg)
  then inr (headers ++ [("Authorization", ("Bearer " ++ default "" (api_token cfg))%string)])%list
  else inl (CloudflareError MSG_NO_CREDENTIALS).

(** [require_zone_id] *)
Definition require_zone_id (cfg : CloudflareConfig) : cf_exn + string :=
  if opt_truthy (zone_id cfg) then inr (default "" (zone_id cfg))
  else inl (CloudflareError MSG_NO_ZONE).

(** [_default_host_list]: the host list of the settings store. *)
Definition _default_host_list (env_ip : string) (d : database) : list string :=
  map PyStr.strip
      (List.filter (fun host => PyStr.truthy (PyStr.strip host))
                   (PyStr.split "," (default "" (get_settings env_ip d !! "ssl_hosts")))).

(** A JSON object of the provider, keys and rendered values. *)
Definition record_dict := list (string * string).

Fixpoint record_get (key : string) (r : record_dict) : option string :=
  match r with
  | [] => None
  | (k, v) :: rest => if String.eqb k key then Some v else record_get key rest
  end.

(** The parsed body of a provider response: [success], [result] read as a
    list, and the [(code, message)] pairs of [errors]. *)
Record api_data := {
  d_success : bool;
  d_result : list record_dict;
  d_errors : list (option string * option string)
}.

(** [str(x)] of an optional text. *)
Definition py_str_opt (o : option string) : string := default "None" o.

(** [format_errors] *)
Definition format_errors (data : api_data) : string :=
  match d_errors data with
  | [] => MSG_API_FAILED
  | errors =>
      PyStr.join ", " (map (fun err => py_str_opt err.1 ++ ": " ++ py_str_opt err.2) errors)
  end.

(** ** [cloudflare_dns.py] *)

Inductive http_method := GET | PUT | POST.

(** The JSON payload of a record write. *)
Record dns_payload := {
  p_type : string;
  p_name : string;
  p_content : string;
  p_ttl : Z;
  p_proxied : bool
}.

(** One call of [requests.request] below [API_BASE_URL]. *)
Record api_request := {
  q_method : http_method;
  q_path : string;
  q_headers : list (string * string);
  q_params : list (string * string);
  q_json : option dns_payload
}.

(** The provider's answer: no response, a body that is not JSON, or a
    response with its [ok] flag and parsed body. *)
Inductive api_reply :=
  | NoReply (reason : string)
  | BadBody
  | ApiReply (ok : bool) (data : api_data).

(** The state the synchroniser runs against: the provider and the exchanges
    made with it so far. *)
Record dns_world (W : Type) := {
  peer : W;
  exchanges : list (api_request * api_reply)
}.
Arguments peer {W}.
Arguments exchanges {W}.

(** One entry of the list returned by [sync_a_records]. *)
Record sync_result := { sr_host : string; sr_action : string }.

(** The first loop of [_determine_hosts]. *)
Definition clean_hosts (hosts : list string) : list string :=
  map PyStr.lower (List.filter PyStr.truthy (map PyStr.strip hosts)).

(** The second loop of [_determine_hosts]. *)
Fixpoint dedupe (cleaned : list string) (seen : gset string) (deduped : list string)
  : list string :=
  match cleaned with
  | [] => deduped
  | host :: rest =>
      if decide (host ∈ seen) then dedupe rest seen deduped
      else dedupe rest ({[host]} ∪ seen) (deduped ++ [host])
  end.

Definition _determine_hosts (cfg : CloudflareConfig) (hosts : option (list string))
  : list string :=
  let hosts := match hosts with
               | None => ssl_hosts cfg
               | Some hosts => hosts
               end in
  dedupe (clean_hosts hosts) ∅ [].

(** [proxied if proxied is not None else True if default_proxied else False] *)
Definition proxied_value (cfg : CloudflareConfig) (proxied : option bool) : bool :=
  let default_proxied := opt_truthy (auth_email cfg) || opt_truthy (api_token cfg) in
  match proxied with
  | Some b => b
  | None => if default_proxied then true else false
  end.

Definition dns_records_path (zone_id : string) : string :=
  "/zones/" ++ zone_id ++ "/dns_records".

Section Dns.
(** The provider, and how it answers a request. *)
Context {W : Type}.
Variable send : api_request -> W -> api_reply * W.

Abbreviation D := (M (dns_world W) cf_exn).

(** [_request]; the headers are built before anything is sent. *)
Definition _request (cfg : CloudflareConfig) (method : http_method) (path : string)
    (params : list (string * string)) (json : option dns_payload) : D api_data :=
  fun w =>
    match build_headers cfg with
    | inl e => (inl e, w)
    | inr headers =>
        let q := {| q_method := method; q_path := path; q_headers := headers;
                    q_params := params; q_json := json |} in
        let (reply, p) := send q (peer w) in
        let w' := {| peer := p; exchanges := exchanges w ++ [(q, reply)] |} in
        match reply with
        | NoReply reason => (inl (TransportError reason), w')
        | BadBody => (inl (TransportError "response body is not JSON"), w')
        | ApiReply ok data =>
            if negb ok || negb (d_success data)
            then (inl (CloudflareError (format_errors data)), w')
            else (inr data, w')
        end
    end.

Definition _find_dns_record (cfg : CloudflareConfig) (zone_id host : string)
  : D (option record_dict) :=
  let! data := _request cfg GET (dns_records_path zone_id)
                 [("type", "A"); ("name", host); ("page", "1"); ("per_page", "1")] None in
  ret (match d_result data with
       | [] => None
       | first :: _ => Some first
       end).

(** The loop of [sync_a_records] over the resolved hosts. *)
Fixpoint upsert_hosts (cfg : CloudflareConfig) (zone_id ip_address : string)
    (proxied_value : bool) (hosts : list string) (results : list sync_result)
  : D (list sync_result) :=
  match hosts with
  | [] => ret results
  | host :: rest =>
      let payload := {| p_type := "A"; p_name := host; p_content := ip_address;
                        p_ttl := 120; p_proxied := proxied_value |} in
      let! existing := _find_dns_record cfg zone_id host in
      match existing with
      | Some ((_ :: _) as existing) =>
          let record_id := py_str_opt (record_get "id" existing) in
          run! _request cfg PUT (dns_records_path zone_id ++ "/" ++ record_id) []
                 (Some payload) in
          upsert_hosts cfg zone_id ip_address proxied_value rest
            (results ++ [{| sr_host := host; sr_action := "updated" |}])
      | _ =>
          run! _request cfg POST (dns_records_path zone_id) [] (Some payload) in
          upsert_hosts cfg zone_id ip_address proxied_value rest
            (results ++ [{| sr_host := host; sr_action := "created" |}])
      end
  end.

Definition sync_a_records (cfg : CloudflareConfig) (ip_address : string)
    (hosts : option (list string)) (proxied : option bool) : D (list sync_result) :=
  if negb (PyStr.truthy ip_address) then raise (CloudflareError MSG_NO_IP)
  else
    match require_zone_id cfg with
    | inl e => raise e
    | inr zone_id =>
        let resolved_hosts := _determine_hosts cfg hosts in
        match resolved_hosts with
        | [] => raise (CloudflareError MSG_NO_HOSTS)
        | _ =>
            upsert_hosts cfg zone_id ip_address (proxied_value cfg proxied)
              resolved_hosts []
        end
    end.

End Dns.

(** *** Vocabulary for the synchroniser's properties *)

(** A list without its repetitions, first occurrences kept in order. *)
Fixpoint first_seen (l : list string) : list string :=
  match l with
  | [] => []
  | x :: rest => x :: filter (fun y => y ≠ x) (first_seen rest)
  end.








(** A provider holding the names of its A records; a created record gets
    the identifier [rec-<name>]. *)
Definition zone_send (q : api_request) (names : list string) : api_reply * list string :=
  let ok result := ApiReply true {| d_success := true; d_result := result; d_errors := [] |} in
  match q_method q with
  | GET =>
      let name := default "" (record_get "name" (q_params q)) in
      if bool_decide (name ∈ names)
      then (ok [[("id", "rec-" ++ name); ("name", name)]], names)
      else (ok [], names)
  | PUT => (ok [], names)
  | POST =>
      match q_json q with
      | Some payload => (ok [], (names ++ [p_name payload])%list)
      | None => (ok [], names)
      end
  end.

Definition token_cfg : CloudflareConfig :=
  {| account_id := None; api_token := Some "secret"; auth_email := None;
     auth_key := None; zone_id := Some "z1"; ssl_hosts := ["static.example.org"] |}.


(** No zone. *)
Definition no_zone_cfg : CloudflareConfig :=
  {| account_id := None; api_token := Some "secret"; auth_email := None;
     auth_key := None; zone_id := None; ssl_hosts := ["static.example.org"] |}.

Definition fresh_zone : dns_world (list string) := {| peer := []; exchanges := [] |}.

(** Whether [build_headers] can authenticate a call. *)
Definition can_authenticate (cfg : CloudflareConfig) : bool :=
  match build_headers cfg with
  | inr _ => true
  | inl _ => false
  end.

(** [get_setting(key, default)] *)
Definition get_setting (env_ip : string) (key : string) (default_value : option string)
    (d : database) : option string :=
  match get_settings env_ip d !! key with
  | Some v => Some v
  | None => default_value
  end.

(** *** Vocabulary for the store's invariants *)



(** A reply that [_request] accepts. *)
Definition accepted_reply (rep : api_reply) : Prop :=
  exists data, rep = ApiReply true data /\ d_success data = true.

(** A registry holding one alias under [example.com]. *)
Definition one_alias_reg : registry :=
  (create_alias "" "example.com" "www" None demo_reg).2.

(** A network on which the first two services fail and the third answers
    200 with a blank body. *)
Definition net_blank_body (url : string) : http_reply :=
  if String.eqb url "https://checkip.amazonaws.com"
  then Reply 200 ("  " ++ String "010" "") None
  else Unreachable "timed out".

(** A host without [cloudflared]: no command can be started. *)
Definition no_binary_spawn (args : list string) (timeout : nat) (p : unit)
  : proc_outcome * unit :=
  (NotStarted, p).

(** A provider that is unreachable. *)
Definition down_send (q : api_request) (p : unit) : api_reply * unit :=
  (NoReply "connection refused", p).

(** ** [cloudflare_ssl.py]: ordering a certificate *)

Definition MSG_SSL_NO_HOSTS : string := "Cloudflare SSL host list boş olamaz.".

(** The JSON payload of a certificate order. *)
Record cert_payload := {
  c_type : string;
  c_hosts : list string;
  c_validation_method : string;
  c_validity_days : Z
}.

(** The POST of a certificate order. *)
Record cert_request := {
  cq_path : string;
  cq_headers : list (string * string);
  cq_json : cert_payload
}.

(** The state an order runs against: the store, the provider and the
    orders sent so far. *)
Record cert_world (W : Type) := {
  c_store : database;
  c_peer : W;
  c_sent : list (cert_request * api_reply)
}.
Arguments c_store {W}.
Arguments c_peer {W}.
Arguments c_sent {W}.

(** [[host.strip() for host in resolved_hosts if host and host.strip()]] *)
Definition trimmed_hosts (resolved_hosts : list string) : list string :=
  map PyStr.strip
      (List.filter (fun host => PyStr.truthy host && PyStr.truthy (PyStr.strip host))
                   resolved_hosts).

(** [hosts if hosts else _default_host_list() or CloudflareConfig.ssl_hosts],
    then the blank items dropped and the others trimmed. *)
Definition certificate_hosts (env_ip : string) (cfg : CloudflareConfig)
    (hosts : option (list string)) (d : database) : list string :=
  let resolved_hosts :=
    match hosts with
    | Some ((_ :: _) as hosts) => hosts
    | _ =>
        match _default_host_list env_ip d with
        | [] => ssl_hosts cfg
        | from_settings => from_settings
        end
    end in
  trimmed_hosts resolved_hosts.

(** [configured_host_list] *)
Definition configured_host_list (env_ip : string) (cfg : CloudflareConfig) (d : database)
  : list string :=
  match _default_host_list env_ip d with
  | [] => ssl_hosts cfg
  | hosts => hosts
  end.

Section Certificates.
Context {W : Type}.
Variable send_order : cert_request -> W -> api_reply * W.

(** [order_advanced_certificate(hosts, validity_days)]; the value returned is
    the [result] of the provider's answer. *)
Definition order_advanced_certificate (env_ip : string) (cfg : CloudflareConfig)
    (hosts : option (list string)) (validity_days : Z)
  : M (cert_world W) cf_exn (list record_dict) :=
  fun w =>
    match certificate_hosts env_ip cfg hosts (c_store w) with
    | [] => (inl (CloudflareError MSG_SSL_NO_HOSTS), w)
    | host_list =>
        match require_zone_id cfg with
        | inl e => (inl e, w)
        | inr zone_id =>
            let payload := {| c_type := "advanced"; c_hosts := host_list;
                              c_validation_method := "txt";
                              c_validity_days := validity_days |} in
            match build_headers cfg with
            | inl e => (inl e, w)
            | inr headers =>
                let q := {| cq_path := "/zones/" ++ zone_id ++ "/ssl/certificate_packs";
                            cq_headers := headers; cq_json := payload |} in
                let (reply, p) := send_order q (c_peer w) in
                let w' := {| c_store := c_store w; c_peer := p;
                             c_sent := c_sent w ++ [(q, reply)] |} in
                match reply with
                | NoReply reason => (inl (TransportError reason), w')
                | BadBody => (inl (TransportError "response body is not JSON"), w')
                | ApiReply ok data =>
                    if negb ok || negb (d_success data)
                    then (inl (CloudflareError (format_errors data)), w')
                    else (inr (d_result data), w')
                end
            end
        end
    end.

End Certificates.

(** * Properties *)

Example normalize_domain_scenario :
  _normalize_domain "HTTPS://Example.com/path?x=1" = "example.com".
Proof. reflexivity. Qed.

Example normalize_subdomain_scenario :
  _normalize_subdomain (Some "Login Page") = "login-page".
Proof. reflexivity. Qed.


(** ** Facts about the string primitives *)

Ltac each_ascii c :=
  destruct c as [[] [] [] [] [] [] [] []]; vm_compute; try reflexivity; try discriminate; auto.

Section StringFacts.
Import PyStr.

Lemma all_chars_weaken (p q : ascii -> bool) s :
  (forall c, p c = true -> q c = true) -> all_chars p s = true -> all_chars q s = true.
Proof.
  intros Hpq. induction s as [|c s IH]; simpl; [done|].
  intros [Hc Hs]%andb_prop. rewrite (Hpq _ Hc), (IH Hs). done.
Qed.

Lemma lower_char_not_upper c : not_upper (lower_char c) = true.
Proof. each_ascii c. Qed.

Lemma lower_char_fixed c : not_upper c = true -> lower_char c = c.
Proof. unfold not_upper, lower_char. destruct (is_upper c); [discriminate|done]. Qed.

Lemma lower_char_space c : is_space (lower_char c) = is_space c.
Proof. each_ascii c. Qed.

Lemma lower_char_slash c : lower_char c = "/"%char -> c = "/"%char.
Proof. each_ascii c. Qed.

Lemma all_lower s : all_chars not_upper (lower s) = true.
Proof. induction s as [|c s IH]; simpl; [done|]. by rewrite lower_char_not_upper, IH. Qed.

Lemma lower_fixed s : all_chars not_upper s = true -> lower s = s.
Proof.
  induction s as [|c s IH]; simpl; [done|].
  intros [Hc Hs]%andb_prop. by rewrite (lower_char_fixed _ Hc), (IH Hs).
Qed.

Lemma lower_idem s : lower (lower s) = lower s.
Proof. apply lower_fixed, all_lower. Qed.

Lemma all_lstrip p s : all_chars p s = true -> all_chars p (lstrip s) = true.
Proof.
  induction s as [|c s IH]; simpl; [done|].
  intros H. destruct (is_space c); [|done].
  apply andb_prop in H as [_ H]. auto.
Qed.

Lemma all_rstrip p s : all_chars p s = true -> all_chars p (rstrip s) = true.
Proof.
  induction s as [|c s IH]; simpl; [done|].
  intros [Hc Hs]%andb_prop. specialize (IH Hs).
  destruct (rstrip s) as [|c' r].
  - destruct (is_space c); simpl; [done|]. by rewrite Hc.
  - change (all_chars p (String c (String c' r))) with (p c && all_chars p (String c' r)).
    by rewrite Hc, IH.
Qed.

Lemma all_strip p s : all_chars p s = true -> all_chars p (strip s) = true.
Proof. intros. by apply all_rstrip, all_lstrip. Qed.

Lemma lstrip_starts_clean s : starts_clean (lstrip s) = true.
Proof.
  induction s as [|c s IH]; simpl; [done|].
  destruct (is_space c) eqn:E; [done|]. simpl. by rewrite E.
Qed.

Lemma lstrip_fixed s : starts_clean s = true -> lstrip s = s.
Proof. destruct s as [|c s]; simpl; [done|]. by destruct (is_space c). Qed.

Lemma rstrip_starts_clean s : starts_clean s = true -> starts_clean (rstrip s) = true.
Proof.
  destruct s as [|c s]; simpl; [done|]. intros Hc.
  destruct (rstrip s); [|done].
  destruct (is_space c) eqn:E; simpl in *; [done|]. by rewrite E.
Qed.

Lemma rstrip_idem s : rstrip (rstrip s) = rstrip s.
Proof.
  induction s as [|c s IH]; simpl; [done|].
  destruct (rstrip s) as [|c' r] eqn:E.
  - destruct (is_space c) eqn:Ec; simpl; [done|]. by rewrite Ec.
  - change (rstrip (String c (String c' r)))
      with (match rstrip (String c' r) with
            | "" => if is_space c then "" else String c ""
            | r' => String c r'
            end).
    by rewrite IH.
Qed.

Lemma strip_starts_clean s : starts_clean (strip s) = true.
Proof. apply rstrip_starts_clean, lstrip_starts_clean. Qed.

Lemma strip_idem s : strip (strip s) = strip s.
Proof.
  unfold strip at 1. rewrite (lstrip_fixed (strip s)) by apply strip_starts_clean.
  apply rstrip_idem.
Qed.

Lemma rstrip_fixed s : all_chars not_space s = true -> rstrip s = s.
Proof.
  induction s as [|c s IH]; simpl; [done|].
  intros [Hc Hs]%andb_prop. rewrite (IH Hs).
  destruct s; [|done]. unfold not_space in Hc. by destruct (is_space c).
Qed.

Lemma strip_fixed s : all_chars not_space s = true -> strip s = s.
Proof.
  intros H. unfold strip. rewrite lstrip_fixed.
  - by apply rstrip_fixed.
  - destruct s as [|c s]; [done|]. simpl in *.
    apply andb_prop in H as [Hc _]. exact Hc.
Qed.

Lemma replace_char_fixed a b s : all_chars (not_char a) s = true -> replace_char a b s = s.
Proof.
  induction s as [|c s IH]; simpl; [done|].
  intros [Hc Hs]%andb_prop. rewrite (IH Hs).
  unfold not_char in Hc. by destruct (Ascii.eqb c a).
Qed.

Lemma all_keep_chars p s : all_chars p (keep_chars p s) = true.
Proof.
  induction s as [|c s IH]; simpl; [done|].
  destruct (p c) eqn:E; [|done]. simpl. by rewrite E, IH.
Qed.

Lemma keep_chars_fixed p s : all_chars p s = true -> keep_chars p s = s.
Proof.
  induction s as [|c s IH]; simpl; [done|].
  intros [Hc Hs]%andb_prop. by rewrite Hc, (IH Hs).
Qed.

Lemma contains_char_all a s : contains_char a s = negb (all_chars (not_char a) s).
Proof.
  induction s as [|c s IH]; simpl; [done|].
  rewrite IH. unfold not_char. by destruct (Ascii.eqb c a).
Qed.

Lemma all_before_first p a s : all_chars p s = true -> all_chars p (before_first a s) = true.
Proof.
  induction s as [|c s IH]; simpl; [done|].
  intros [Hc Hs]%andb_prop. destruct (Ascii.eqb c a); [done|].
  simpl. by rewrite Hc, (IH Hs).
Qed.

Lemma before_first_free a s : all_chars (not_char a) (before_first a s) = true.
Proof.
  induction s as [|c s IH]; simpl; [done|].
  destruct (Ascii.eqb c a) eqn:E; [done|]. simpl. unfold not_char at 1. by rewrite E, IH.
Qed.

Lemma all_drop_prefix_ci p pat s r :
  drop_prefix_ci pat s = Some r -> all_chars p s = true -> all_chars p r = true.
Proof.
  revert s. induction pat as [|a pat IH]; intros s; simpl.
  - destruct s; intros [= <-]; done.
  - destruct s as [|c s]; [done|].
    destruct (Ascii.eqb (lower_char a) (lower_char c)); [|done].
    simpl. intros H [_ Hs]%andb_prop. eauto.
Qed.

(** A pattern holding a slash only matches a text holding one. *)
Lemma drop_prefix_ci_slash pat s r :
  drop_prefix_ci pat s = Some r ->
  contains_char "/" pat = true -> contains_char "/" s = true.
Proof.
  revert s. induction pat as [|a pat IH]; intros s; simpl; [done|].
  destruct s as [|c s]; [done|].
  destruct (Ascii.eqb (lower_char a) (lower_char c)) eqn:E; [|done].
  simpl. intros H [Ha|Hp]%orb_prop.
  - apply Ascii.eqb_eq in Ha as ->. apply Ascii.eqb_eq in E.
    symmetry in E. apply lower_char_slash in E as ->. done.
  - rewrite (IH _ H Hp). by rewrite orb_true_r.
Qed.

Lemma strip_scheme_fixed s : contains_char "/" s = false -> strip_scheme s = s.
Proof.
  intros H. unfold strip_scheme.
  destruct (drop_prefix_ci "https://" s) eqn:E1.
  { apply drop_prefix_ci_slash in E1; [congruence|done]. }
  destruct (drop_prefix_ci "http://" s) eqn:E2; [|done].
  apply drop_prefix_ci_slash in E2; [congruence|done].
Qed.

Lemma all_strip_scheme p s : all_chars p s = true -> all_chars p (strip_scheme s) = true.
Proof.
  intros H. unfold strip_scheme.
  destruct (drop_prefix_ci "https://" s) eqn:E1; [by eapply all_drop_prefix_ci|].
  destruct (drop_prefix_ci "http://" s) eqn:E2; [by eapply all_drop_prefix_ci|done].
Qed.

Lemma truthy_true s : truthy s = true <-> s <> "".
Proof.
  unfold truthy. destruct (String.eqb_spec s ""); simpl; split; congruence.
Qed.

Lemma truthy_false s : truthy s = false <-> s = "".
Proof.
  unfold truthy. destruct (String.eqb_spec s ""); simpl; split; congruence.
Qed.

End StringFacts.

(** ** Normalisation *)

Lemma normalize_domain_lower x : PyStr.all_chars not_upper (_normalize_domain x) = true.
Proof.
  unfold _normalize_domain.
  assert (H : PyStr.all_chars not_upper (strip_scheme (PyStr.lower (PyStr.strip x))) = true)
    by apply all_strip_scheme, all_lower.
  destruct (PyStr.contains_char "/" _); [by apply all_before_first|done].
Qed.

Lemma normalize_domain_no_slash x : PyStr.contains_char "/" (_normalize_domain x) = false.
Proof.
  unfold _normalize_domain.
  destruct (PyStr.contains_char "/" (strip_scheme _)) eqn:E; [|done].
  by rewrite contains_char_all, before_first_free.
Qed.

(** A second pass only trims what the first one left. *)
Lemma normalize_domain_twice x :
  _normalize_domain (_normalize_domain x) = PyStr.strip (_normalize_domain x).
Proof.
  set (y := _normalize_domain x).
  assert (Hl : PyStr.all_chars not_upper (PyStr.strip y) = true)
    by apply all_strip, normalize_domain_lower.
  assert (Hs : PyStr.contains_char "/" (PyStr.strip y) = false).
  { rewrite contains_char_all. apply negb_false_iff, all_strip.
    pose proof (normalize_domain_no_slash x) as H.
    rewrite contains_char_all in H. by apply negb_false_iff in H. }
  unfold _normalize_domain at 1. rewrite (lower_fixed _ Hl).
  by rewrite (strip_scheme_fixed _ Hs), Hs.
Qed.

Lemma normalize_subdomain_chars x :
  PyStr.all_chars subdomain_char (_normalize_subdomain x) = true.
Proof. apply all_keep_chars. Qed.

Lemma subdomain_char_not_space c : subdomain_char c = true -> not_space c = true.
Proof. each_ascii c. Qed.

Lemma subdomain_char_not_upper c : subdomain_char c = true -> not_upper c = true.
Proof. each_ascii c. Qed.

Lemma subdomain_char_not_blank c : subdomain_char c = true -> not_char " " c = true.
Proof. each_ascii c. Qed.

Lemma subdomain_chars_fixed s :
  PyStr.all_chars subdomain_char s = true -> _normalize_subdomain (Some s) = s.
Proof.
  intros H. unfold _normalize_subdomain. simpl.
  rewrite strip_fixed by (eapply all_chars_weaken, H; apply subdomain_char_not_space).
  rewrite lower_fixed by (eapply all_chars_weaken, H; apply subdomain_char_not_upper).
  rewrite replace_char_fixed by (eapply all_chars_weaken, H; apply subdomain_char_not_blank).
  by apply keep_chars_fixed.
Qed.

(** C9, as stated, at the input ["a.com /x"]: the first pass cuts the path
    and leaves the blank in front of it, the second pass trims that blank. *)
Lemma C9_normalize_domain_not_idempotent :
  ~ (forall x, _normalize_domain (_normalize_domain x) = _normalize_domain x).
Proof. intros H. specialize (H "a.com /x"). vm_compute in H. discriminate. Qed.

(** C9 (amended): label normalisation is idempotent on every input; domain
    normalisation applied twice equals the trimmed single application, hence
    it is idempotent exactly where the first result carries no outer blank,
    and it is stable from the second application on. *)
Theorem C9_normalization_idempotence :
  (forall x, _normalize_subdomain (Some (_normalize_subdomain x)) = _normalize_subdomain x)
  /\ (forall x, _normalize_domain (_normalize_domain x) = PyStr.strip (_normalize_domain x))
  /\ (forall x, _normalize_domain (_normalize_domain x) = _normalize_domain x
                <-> PyStr.strip (_normalize_domain x) = _normalize_domain x)
  /\ (forall x, _normalize_domain (_normalize_domain (_normalize_domain x))
                = _normalize_domain (_normalize_domain x)).
Proof.
  repeat split.
  - intros x. apply subdomain_chars_fixed, normalize_subdomain_chars.
  - apply normalize_domain_twice.
  - by rewrite normalize_domain_twice.
  - by rewrite normalize_domain_twice.
  - intros x. rewrite (normalize_domain_twice (_normalize_domain x)).
    rewrite normalize_domain_twice. apply strip_idem.
Qed.

(** ** The entropy source and the generated labels *)

Lemma skip_0 e : skip 0 e = e.
Proof. destruct e as [f c]. unfold skip. simpl. by rewrite Nat.add_0_r. Qed.

Lemma skip_skip a b e : skip a (skip b e) = skip (b + a) e.
Proof. unfold skip. simpl. by rewrite Nat.add_assoc. Qed.

Lemma choice_rng e : (choice e).2 = skip 1 e.
Proof. unfold choice, draw, skip. cbv beta iota. cbn [snd]. by rewrite Nat.add_1_r. Qed.

Lemma alphabet_alnum k :
  (k < 36)%nat -> alnum_lower (default "a"%char (String.get k _RANDOM_ALPHABET)) = true.
Proof. intros Hk. do 36 (destruct k as [|k]; [reflexivity|]). lia. Qed.

Lemma choice_alnum e : alnum_lower (choice e).1 = true.
Proof.
  unfold choice, draw. cbv beta iota. cbn [fst].
  apply alphabet_alnum, Nat.mod_upper_bound. lia.
Qed.

Lemma choices_rng n e : (choices n e).2 = skip n e.
Proof.
  revert e. induction n as [|n IH]; intros e; cbn [choices].
  - by rewrite skip_0.
  - pose proof (choice_rng e) as Hc. destruct (choice e) as [c e1]. cbn [snd] in Hc. subst e1.
    specialize (IH (skip 1 e)). destruct (choices n (skip 1 e)) as [s e2].
    cbn [snd] in *. subst e2. by rewrite skip_skip.
Qed.

Lemma choices_length n e : String.length (choices n e).1 = n.
Proof.
  revert e. induction n as [|n IH]; intros e; cbn [choices]; [done|].
  destruct (choice e) as [c e1]. specialize (IH e1).
  destruct (choices n e1) as [s e2]. cbn [fst String.length] in *. by rewrite IH.
Qed.

Lemma choices_alnum n e : PyStr.all_chars alnum_lower (choices n e).1 = true.
Proof.
  revert e. induction n as [|n IH]; intros e; cbn [choices]; [done|].
  pose proof (choice_alnum e) as Hc. destruct (choice e) as [c e1]. specialize (IH e1).
  destruct (choices n e1) as [s e2]. cbn [fst PyStr.all_chars] in *. by rewrite Hc, IH.
Qed.

Lemma generate_24 e : generate_masked_subdomain 24 e = choices 24 e.
Proof. reflexivity. Qed.

(** [generate_masked_subdomain(n)] has [max(8, n)] characters, all
    lowercase letters or digits. *)
Lemma generate_masked_subdomain_shape n e :
  String.length (generate_masked_subdomain n e).1 = Z.to_nat (Z.max 8 n)
  /\ PyStr.all_chars alnum_lower (generate_masked_subdomain n e).1 = true.
Proof. split; [apply choices_length|apply choices_alnum]. Qed.

Lemma generate_rng e : (generate_masked_subdomain 24 e).2 = skip 24 e.
Proof. apply choices_rng. Qed.

Lemma label_after_shape k e :
  String.length (label_after k e) = 24
  /\ PyStr.all_chars alnum_lower (label_after k e) = true.
Proof. apply (generate_masked_subdomain_shape 24). Qed.

Lemma attempt_shift cand e k :
  attempt cand e (S k)
  = attempt (generate_masked_subdomain 24 e).1 (generate_masked_subdomain 24 e).2 k.
Proof.
  destruct k as [|j]; cbn [attempt]; unfold label_after.
  - by rewrite skip_0.
  - rewrite generate_rng, skip_skip. do 3 f_equal. lia.
Qed.

(** The retry loop stops at the first free label or after [left] fresh ones. *)
Lemma regenerate_spec left base masked d e :
  exists k, (k <= left)%nat
    /\ regenerate left base masked d e = (attempt masked e k, skip (24 * k) e)
    /\ (forall j, (j < k)%nat -> _masked_exists base (attempt masked e j) d = true)
    /\ ((k < left)%nat -> _masked_exists base (attempt masked e k) d = false).
Proof.
  revert masked e. induction left as [|left IH]; intros masked e.
  - exists 0%nat. cbn [regenerate attempt]. rewrite skip_0. repeat split; [lia..].
  - cbn [regenerate]. destruct (_masked_exists base masked d) eqn:Hm.
    + pose proof (generate_rng e) as Hr.
      pose proof (attempt_shift masked e) as Hs.
      destruct (generate_masked_subdomain 24 e) as [m1 e1]. cbn [fst snd] in Hr, Hs. subst e1.
      destruct (IH m1 (skip 24 e)) as (k & Hk & Heq & Hbusy & Hfree).
      exists (S k). repeat split.
      * lia.
      * rewrite Heq, Hs, skip_skip. do 2 f_equal. lia.
      * intros [|j] Hj; [done|]. rewrite Hs. apply Hbusy. lia.
      * intros Hlt. rewrite Hs. apply Hfree. lia.
    + exists 0%nat. cbn [attempt]. rewrite skip_0. repeat split; [lia|lia|done].
Qed.

(** ** The alias registry *)

Lemma sync_ssl_hosts_aliases env hosts d :
  domain_aliases (_sync_ssl_hosts env hosts d) = domain_aliases d.
Proof.
  unfold _sync_ssl_hosts. destruct (map _ _); [done|].
  destruct (merge_hosts _ _ _) as [cur [|]]; done.
Qed.

Lemma masked_exists_pairs base masked d :
  _masked_exists base masked d = true <-> (base, masked) ∈ masked_pairs d.
Proof.
  unfold _masked_exists, masked_pairs. rewrite existsb_exists, list_elem_of_fmap.
  split.
  - intros (x & Hx & [Hb Hm]%andb_prop).
    apply bool_decide_eq_true in Hb, Hm. exists x. rewrite <- Hb, <- Hm.
    split; [done|]. by apply list_elem_of_In.
  - intros (x & [= -> ->] & Hx). exists x. split; [by apply list_elem_of_In|].
    by rewrite !bool_decide_eq_true_2.
Qed.

Lemma find_fresh_last (id : string) rows r :
  alias_id r = id ->
  existsb (alias_conflict r) rows = false ->
  find (fun x => bool_decide (alias_id x = id)) (rows ++ [r])%list = Some r.
Proof.
  intros Hid. induction rows as [|x rows IH]; simpl.
  - intros _. by rewrite bool_decide_eq_true_2.
  - intros [Hx Hrows]%orb_false_elim. unfold alias_conflict in Hx.
    apply orb_false_elim in Hx as [[Hx _]%orb_false_elim _].
    rewrite Hid in Hx. rewrite Hx. auto.
Qed.

(** What a completed insertion leaves behind. *)
Lemma persist_alias_ok env base real masked d e r st' :
  persist_alias env base real masked d e = (inr r, st') ->
  exists v, r = Some v
    /\ base_domain (row v) = base /\ subdomain (row v) = real
    /\ masked_subdomain (row v) = masked
    /\ target_host v = _join_host real base /\ masked_host v = _join_host masked base
    /\ domain_aliases (store st') = (domain_aliases d ++ [row v])%list
    /\ store st' = _sync_ssl_hosts env [_join_host real base; _join_host masked base]
                     (with_aliases (domain_aliases d ++ [row v]) d).
Proof.
  unfold persist_alias. destruct (uuid4_hex e) as [id e'].
  unfold insert_alias.
  set (r0 := {| alias_id := id; base_domain := base; subdomain := real;
                masked_subdomain := masked; created_at := clock d |}).
  destruct (existsb (alias_conflict r0) (domain_aliases d)) eqn:Hc; [done|].
  intros [= <- <-]. unfold fetch_alias. rewrite sync_ssl_hosts_aliases.
  cbn [with_aliases domain_aliases].
  rewrite (find_fresh_last id _ r0) by done.
  eexists. split; [reflexivity|]. cbn [row store target_host masked_host].
  rewrite sync_ssl_hosts_aliases. done.
Qed.

Lemma persist_alias_error env base real masked d e err st' :
  persist_alias env base real masked d e = (inl err, st') ->
  err = IntegrityError /\ store st' = d.
Proof.
  unfold persist_alias. destruct (uuid4_hex e) as [id e'].
  unfold insert_alias. destruct (existsb _ _); [|done].
  by intros [= <- <-].
Qed.

(** The label settled by the collision check and the retry loop. *)
Lemma settle_spec base cand d e :
  exists k, (k <= 5)%nat
    /\ (if _masked_exists base cand d then regenerate 5 base cand d e else (cand, e))
       = (attempt cand e k, skip (24 * k) e)
    /\ (forall j, (j < k)%nat -> _masked_exists base (attempt cand e j) d = true)
    /\ ((k < 5)%nat -> _masked_exists base (attempt cand e k) d = false).
Proof.
  destruct (_masked_exists base cand d) eqn:Hm.
  - apply regenerate_spec.
  - exists 0%nat. cbn [attempt]. rewrite skip_0. repeat split; [lia|lia|done].
Qed.

(** [create_alias] on a non-empty base domain, with the loop unrolled. *)
Lemma create_alias_unrolled env base sub m st :
  _normalize_domain base <> "" ->
  let b := _normalize_domain base in
  let ce := first_candidate m (rng st) in
  exists k, (k <= 5)%nat
    /\ (forall j, (j < k)%nat -> _masked_exists b (attempt ce.1 ce.2 j) (store st) = true)
    /\ ((k < 5)%nat -> _masked_exists b (attempt ce.1 ce.2 k) (store st) = false)
    /\ create_alias env base sub m st
       = if _masked_exists b (attempt ce.1 ce.2 k) (store st)
         then (inl AliasCollisionError, {| store := store st; rng := skip (24 * k) ce.2 |})
         else persist_alias env b (_normalize_subdomain (Some sub)) (attempt ce.1 ce.2 k)
                (store st) (skip (24 * k) ce.2).
Proof.
  intros Hb b ce. unfold create_alias. fold b.
  apply truthy_true in Hb. fold b in Hb. rewrite Hb. cbn [negb].
  fold ce. destruct ce as [cand e1]. cbn [fst snd].
  destruct (settle_spec b cand (store st) e1) as (k & Hk & Heq & Hbusy & Hfree).
  exists k. rewrite Heq. done.
Qed.

Lemma masked_pairs_snoc d' d r :
  domain_aliases d' = (domain_aliases d ++ [r])%list ->
  masked_pairs d' = (masked_pairs d ++ [(base_domain r, masked_subdomain r)])%list.
Proof. unfold masked_pairs. intros ->. by rewrite map_app. Qed.

Lemma alias_errors_differ : AliasCollisionError <> AliasValidationError.
Proof. discriminate. Qed.

Lemma create_alias_empty_base env base sub m st :
  _normalize_domain base = "" ->
  create_alias env base sub m st = (inl AliasValidationError, st).
Proof. intros Hb. unfold create_alias. by rewrite Hb. Qed.

(** C1: an empty normalised base domain fails with the validation error and
    leaves every table as it was; otherwise the candidate label and up to
    five regenerated ones are tried in turn, the call fails with the
    collision error exactly when all six are taken (the alias table then
    stays as it was), and a completed call appends one row whose
    (base_domain, masked_subdomain) pair was not in the table, so pairs
    stay free of duplicates. *)
Theorem C1_create_alias_outcomes env base sub m st :
  let b := _normalize_domain base in
  let ce := first_candidate m (rng st) in
  let busy k := _masked_exists b (attempt ce.1 ce.2 k) (store st) = true in
  (b = "" -> create_alias env base sub m st = (inl AliasValidationError, st))
  /\ (b <> "" ->
      ((forall k, (k <= 5)%nat -> busy k)
         <-> (create_alias env base sub m st).1 = inl AliasCollisionError)
      /\ ((create_alias env base sub m st).1 = inl AliasCollisionError ->
          store (create_alias env base sub m st).2 = store st)
      /\ (forall r st', create_alias env base sub m st = (inr r, st') ->
          exists v k, r = Some v /\ (k <= 5)%nat
            /\ base_domain (row v) = b
            /\ masked_subdomain (row v) = attempt ce.1 ce.2 k
            /\ (forall j, (j < k)%nat -> busy j) /\ ~ busy k
            /\ domain_aliases (store st') = (domain_aliases (store st) ++ [row v])%list
            /\ ((b, masked_subdomain (row v)) ∉ masked_pairs (store st))
            /\ (NoDup (masked_pairs (store st)) -> NoDup (masked_pairs (store st'))))).
Proof.
  intros b ce busy. split.
  - apply create_alias_empty_base.
  - intros Hb.
    destruct (create_alias_unrolled env base sub m st Hb) as (k & Hk & Hbusy & Hfree & Heq).
    fold b ce in Hbusy, Hfree, Heq. rewrite Heq. clear Heq.
    destruct (_masked_exists b (attempt ce.1 ce.2 k) (store st)) eqn:Hlast.
    + assert (k = 5)%nat as -> by (destruct (decide (k < 5)%nat) as [Hlt|]; [|lia];
        specialize (Hfree Hlt); congruence).
      split; [split|split]; try done.
      intros _ j Hj. unfold busy. destruct (decide (j = 5)) as [->|]; [done|].
      apply Hbusy. lia.
    + assert (Hnot : ~ (forall j, (j <= 5)%nat -> busy j)).
      { intros Hall. specialize (Hall k Hk). unfold busy in Hall. congruence. }
      set (res := persist_alias _ _ _ _ _ _). destruct res as [[err|r] st1] eqn:Hres.
      * apply persist_alias_error in Hres as [-> Hst].
        split; [split|split]; done.
      * apply persist_alias_ok in Hres as (v & -> & Hbase & _ & Hm & _ & _ & Hrows & _).
        split; [split; done|]. split; [done|].
        intros r' st' [= <- <-]. exists v, k.
        assert (Hnew : (b, masked_subdomain (row v)) ∉ masked_pairs (store st)).
        { rewrite Hm, <- masked_exists_pairs. congruence. }
        do 4 (split; [done|]). split; [done|]. split; [unfold busy; congruence|].
        do 2 (split; [done|]).
        intros Hnd. rewrite (masked_pairs_snoc _ _ _ Hrows), Hbase.
        apply NoDup_app. repeat split; [done| |apply NoDup_singleton].
        intros p Hp ->%list_elem_of_singleton. done.
Qed.

(** C1 at work: an empty base domain, and a table in which every label the
    entropy source offers is already taken. *)
Lemma C1_create_alias_outcomes_witness :
  create_alias "" " " "www" None demo_reg = (inl AliasValidationError, demo_reg)
  /\ (create_alias "" "example.com" "www" None
        {| store := crowded_db; rng := demo_rng |}).1 = inl AliasCollisionError.
Proof.
  split.
  - apply (proj1 (C1_create_alias_outcomes "" " " "www" None demo_reg)).
    reflexivity.
  - apply (proj2 (C1_create_alias_outcomes "" "example.com" "www" None
                    {| store := crowded_db; rng := demo_rng |})).
    + discriminate.
    + intros k Hk.
      do 6 (destruct k as [|k]; [vm_compute; reflexivity|]). lia.
Defined.


Lemma generated_attempt_shape m e k :
  supplied_label m = "" ->
  let ce := first_candidate m e in
  String.length (attempt ce.1 ce.2 k) = 24
  /\ PyStr.all_chars alnum_lower (attempt ce.1 ce.2 k) = true.
Proof.
  intros Hm. unfold first_candidate. rewrite Hm. cbn [PyStr.truthy String.eqb negb].
  destruct k as [|j]; cbn [attempt].
  - apply (generate_masked_subdomain_shape 24).
  - apply label_after_shape.
Qed.





(** ** Splitting and joining host lists *)

Section HostListFacts.
Import PyStr.

Lemma append_cons x (a b : string) : String x a ++ b = String x (a ++ b).
Proof. reflexivity. Qed.

Lemma append_nil (b : string) : "" ++ b = b.
Proof. reflexivity. Qed.

Lemma append_assoc (a b c : string) : (a ++ b) ++ c = a ++ (b ++ c).
Proof. induction a as [|x a IH]; [done|]. by rewrite !append_cons, IH. Qed.

Lemma all_chars_app p a b :
  all_chars p (a ++ b) = all_chars p a && all_chars p b.
Proof.
  induction a as [|x a IH]; [done|].
  rewrite append_cons. cbn [all_chars]. by rewrite IH, andb_assoc.
Qed.

Lemma split_nonempty a s : split a s <> [].
Proof.
  induction s as [|c s IH]; cbn [split]; [done|].
  destruct (Ascii.eqb c a); [done|]. by destruct (split a s).
Qed.

Lemma split_free a s : all_chars (not_char a) s = true -> split a s = [s].
Proof.
  induction s as [|c s IH]; cbn [split all_chars]; [done|].
  intros [Hc Hs]%andb_prop. unfold not_char in Hc.
  destruct (Ascii.eqb c a); [done|]. by rewrite (IH Hs).
Qed.

Lemma split_app a p t :
  all_chars (not_char a) p = true -> split a (p ++ String a t) = p :: split a t.
Proof.
  induction p as [|c p IH]; rewrite ?append_cons, ?append_nil; cbn [split all_chars].
  - intros _. by rewrite Ascii.eqb_refl.
  - intros [Hc Hp]%andb_prop. unfold not_char in Hc.
    destruct (Ascii.eqb c a); [done|]. by rewrite (IH Hp).
Qed.

Lemma split_items_free a s : Forall (fun x => all_chars (not_char a) x = true) (split a s).
Proof.
  induction s as [|c s IH]; cbn [split].
  - by constructor.
  - destruct (Ascii.eqb c a) eqn:E; [by constructor|].
    destruct (split a s) as [|h t]; [by constructor; [cbn; unfold not_char; rewrite E|]|].
    inversion_clear IH as [|?? Hh Ht]. constructor; [|done].
    cbn [all_chars]. unfold not_char at 1. by rewrite E, Hh.
Qed.

Lemma lstrip_lower s : lstrip (lower s) = lower (lstrip s).
Proof.
  induction s as [|c s IH]; cbn [lower lstrip]; [done|].
  rewrite lower_char_space. by destruct (is_space c).
Qed.

Lemma rstrip_lower s : rstrip (lower s) = lower (rstrip s).
Proof.
  induction s as [|c s IH]; cbn [lower rstrip]; [done|].
  rewrite IH, lower_char_space.
  destruct (rstrip s); cbn [lower]; [|done]. by destruct (is_space c).
Qed.

Lemma strip_lower s : strip (lower s) = lower (strip s).
Proof. unfold strip. by rewrite lstrip_lower, rstrip_lower. Qed.

Lemma lower_nonempty s : s <> "" -> lower s <> "".
Proof. by destruct s. Qed.

Lemma lower_char_comma c : not_char "," c = true -> not_char "," (lower_char c) = true.
Proof. each_ascii c. Qed.

Lemma all_lower_comma s :
  all_chars (not_char ",") s = true -> all_chars (not_char ",") (lower s) = true.
Proof.
  induction s as [|c s IH]; cbn [lower all_chars]; [done|].
  intros [Hc Hs]%andb_prop. by rewrite (lower_char_comma _ Hc), (IH Hs).
Qed.

(** The filed form of a comma-free, non-blank host is clean. *)
Lemma filed_host_clean h :
  all_chars (not_char ",") h = true -> strip h <> "" -> clean_host (filed_host h).
Proof.
  intros Hc Hne. unfold filed_host, clean_host. repeat split.
  - by apply lower_nonempty.
  - by rewrite strip_lower, strip_idem.
  - apply lower_idem.
  - by apply all_lower_comma, all_strip.
Qed.

Lemma parse_hosts_clean v : Forall clean_host (parse_hosts v).
Proof.
  unfold parse_hosts. apply Forall_fmap, Forall_forall.
  intros item [Hin Hok]%list_elem_of_In%filter_In.
  apply andb_prop in Hok as [_ Hne%truthy_true].
  apply filed_host_clean; [|done].
  pose proof (split_items_free "," v) as Hall.
  rewrite Forall_forall in Hall. by apply Hall, list_elem_of_In.
Qed.

Lemma lstrip_spaces pre s :
  all_chars is_space pre = true -> lstrip (pre ++ s) = lstrip s.
Proof.
  induction pre as [|c pre IH]; rewrite ?append_cons, ?append_nil;
    cbn [all_chars lstrip]; [done|].
  intros [-> Hp]%andb_prop. auto.
Qed.

Lemma strip_spaces pre s :
  all_chars is_space pre = true -> strip (pre ++ s) = strip s.
Proof. intros H. unfold strip. by rewrite lstrip_spaces. Qed.

Lemma parse_hosts_single pre p :
  all_chars is_space pre = true -> all_chars (not_char ",") pre = true ->
  clean_host p -> parse_hosts (pre ++ p) = [p].
Proof.
  intros Hsp Hpc (Hne & Hstrip & Hlow & Hcomma).
  unfold parse_hosts. rewrite split_free by (by rewrite all_chars_app, Hpc, Hcomma).
  cbn [List.filter]. rewrite strip_spaces, Hstrip by done.
  assert (truthy (pre ++ p) = true) as ->.
  { apply truthy_true. destruct pre; [done|]. done. }
  apply truthy_true in Hne. rewrite Hne. cbn [andb map].
  by rewrite strip_spaces, Hstrip, Hlow.
Qed.

Lemma join_cons sep p q rest :
  join sep (p :: q :: rest) = p ++ sep ++ join sep (q :: rest).
Proof. reflexivity. Qed.

Lemma comma_blank s : ", " ++ s = String "," (" " ++ s).
Proof. reflexivity. Qed.

(** Reading back what [", ".join] wrote. *)
Lemma parse_hosts_join pre l :
  all_chars is_space pre = true -> all_chars (not_char ",") pre = true ->
  l <> [] -> Forall clean_host l -> parse_hosts (pre ++ join ", " l) = l.
Proof.
  intros Hsp Hpc Hl Hall. revert pre Hsp Hpc.
  induction Hall as [|p rest Hp Hrest IH]; [done|]. intros pre Hsp Hpc.
  destruct rest as [|q rest].
  { by apply parse_hosts_single. }
  rewrite join_cons, comma_blank, <- append_assoc.
  pose proof Hp as (Hne & Hstrip & Hlow & Hcomma).
  unfold parse_hosts. rewrite split_app by (by rewrite all_chars_app, Hpc, Hcomma).
  cbn [List.filter]. rewrite strip_spaces, Hstrip by done.
  assert (truthy (pre ++ p) = true) as ->.
  { apply truthy_true. destruct pre; [done|]. done. }
  apply truthy_true in Hne. rewrite Hne. cbn [andb map].
  rewrite strip_spaces, Hstrip, Hlow by done. f_equal.
  apply (IH ltac:(done) " "); reflexivity.
Qed.

End HostListFacts.

(** ** Propagation into the [ssl_hosts] setting *)

Lemma merge_hosts_set hosts cur ch :
  (merge_hosts hosts cur ch).1 = list_to_set hosts ∪ cur.
Proof.
  revert cur ch. induction hosts as [|h hosts IH]; intros cur ch; cbn [merge_hosts].
  - cbn. set_solver.
  - destruct (decide (h ∈ cur)); rewrite IH, list_to_set_cons; set_solver.
Qed.

Lemma merge_hosts_flag hosts cur ch :
  (merge_hosts hosts cur ch).2 = false <-> ch = false /\ list_to_set hosts ⊆ cur.
Proof.
  revert cur ch. induction hosts as [|h hosts IH]; intros cur ch; cbn [merge_hosts].
  - cbn. set_solver.
  - destruct (decide (h ∈ cur)); rewrite IH, list_to_set_cons; [set_solver|].
    split; [by intros [? _]|]. intros [_ Hsub]. set_solver.
Qed.

Lemma ssl_hosts_written env v d :
  get_settings env (update_settings [("ssl_hosts", v)] d) !! "ssl_hosts" = Some v.
Proof.
  unfold get_settings, update_settings. cbn [fold_left with_settings app_settings fst snd].
  apply lookup_union_Some_l. rewrite lookup_omap, lookup_insert_eq. done.
Qed.

Lemma sorted_elements_set (S : gset string) :
  list_to_set (merge_sort String.le (elements S)) = S.
Proof. rewrite merge_sort_Permutation. apply list_to_set_elements_L. Qed.

Lemma sorted_elements_elem (S : gset string) x :
  x ∈ merge_sort String.le (elements S) <-> x ∈ S.
Proof. rewrite merge_sort_Permutation. apply elem_of_elements. Qed.

Lemma host_set_with_aliases env rows d :
  host_set env (with_aliases rows d) = host_set env d.
Proof. reflexivity. Qed.

Lemma host_set_clean env d x : x ∈ host_set env d -> clean_host x.
Proof.
  unfold host_set. rewrite elem_of_list_to_set. intros Hx.
  pose proof (parse_hosts_clean (default "" (get_settings env d !! "ssl_hosts"))) as Hall.
  rewrite Forall_forall in Hall. auto.
Qed.

(** Nothing is written when every host is already filed. *)
Lemma sync_ssl_hosts_idle env hosts d :
  (forall h, h ∈ hosts -> h <> "" -> filed_host h ∈ host_set env d) ->
  _sync_ssl_hosts env hosts d = d.
Proof.
  intros Hin. unfold _sync_ssl_hosts.
  set (normalized := map _ (List.filter PyStr.truthy hosts)).
  assert (Hsub : list_to_set normalized ⊆ host_set env d).
  { intros x. rewrite elem_of_list_to_set. unfold normalized.
    rewrite list_elem_of_fmap. intros (h & -> & Hh).
    apply list_elem_of_In, filter_In in Hh as [Hh Ht%truthy_true].
    apply Hin; [by apply list_elem_of_In|done]. }
  destruct normalized as [|n0 rest] eqn:En; [done|]. fold (host_set env d).
  pose proof (proj2 (merge_hosts_flag (n0 :: rest) (host_set env d) false)
                (conj eq_refl Hsub)) as Hflag.
  destruct (merge_hosts (n0 :: rest) (host_set env d) false) as [cur ch].
  cbn [snd] in Hflag. by rewrite Hflag.
Qed.

(** The host list after propagating two hosts whose filed forms are clean. *)
Lemma sync_ssl_hosts_spec env h1 h2 d :
  h1 <> "" -> h2 <> "" -> clean_host (filed_host h1) -> clean_host (filed_host h2) ->
  host_set env (_sync_ssl_hosts env [h1; h2] d)
  = {[filed_host h1; filed_host h2]} ∪ host_set env d.
Proof.
  intros H1%truthy_true H2%truthy_true Hc1 Hc2. unfold _sync_ssl_hosts.
  cbn [List.filter]. rewrite H1, H2. cbn [map]. fold (filed_host h1) (filed_host h2).
  fold (host_set env d).
  pose proof (merge_hosts_set [filed_host h1; filed_host h2] (host_set env d) false) as Hset.
  pose proof (merge_hosts_flag [filed_host h1; filed_host h2] (host_set env d) false) as Hflag.
  destruct (merge_hosts _ _ _) as [cur ch]. cbn [fst snd] in Hset, Hflag.
  assert (Hcur : cur = {[filed_host h1; filed_host h2]} ∪ host_set env d).
  { rewrite Hset. set_solver. }
  destruct ch.
  - unfold host_set at 1. rewrite ssl_hosts_written. cbn [default from_option id].
    set (L := merge_sort String.le (elements cur)).
    assert (Hne : L <> []).
    { intros Hnil. assert (Hin : filed_host h1 ∈ L).
      { apply sorted_elements_elem. rewrite Hcur. set_solver. }
      rewrite Hnil in Hin. by apply not_elem_of_nil in Hin. }
    assert (Hall : Forall clean_host L).
    { apply Forall_forall. intros x Hx%sorted_elements_elem. rewrite Hcur in Hx.
      apply elem_of_union in Hx as [Hx|Hx]; [|by eapply host_set_clean].
      apply elem_of_union in Hx as [->%elem_of_singleton| ->%elem_of_singleton]; done. }
    pose proof (parse_hosts_join "" L eq_refl eq_refl Hne Hall) as Hback.
    rewrite append_nil in Hback. rewrite Hback. unfold L.
    by rewrite sorted_elements_set.
  - destruct Hflag as [Hflag _]. destruct (Hflag eq_refl) as [_ Hsub]. set_solver.
Qed.

Lemma alnum_subdomain_char c : alnum_lower c = true -> subdomain_char c = true.
Proof. unfold alnum_lower, subdomain_char. intros ->. done. Qed.

Lemma subdomain_char_not_comma c : subdomain_char c = true -> not_char "," c = true.
Proof. each_ascii c. Qed.

Lemma length_nonempty s n : String.length s = S n -> s <> "".
Proof. by destruct s. Qed.

(** Every label tried is a non-empty string over [a-z0-9-]. *)
Lemma attempt_label m e k :
  let ce := first_candidate m e in
  attempt ce.1 ce.2 k <> ""
  /\ PyStr.all_chars subdomain_char (attempt ce.1 ce.2 k) = true.
Proof.
  cbn zeta. destruct k as [|j]; cbn [attempt].
  - unfold first_candidate. destruct (PyStr.truthy (supplied_label m)) eqn:Hs; cbn [negb fst].
    + split; [by apply truthy_true|]. unfold supplied_label.
      destruct m as [m|]; [|done]. destruct (PyStr.truthy m); [|done].
      apply normalize_subdomain_chars.
    + pose proof (choices_length 24 e) as Hlen.
      pose proof (choices_alnum 24 e) as Hal.
      rewrite <- generate_24 in Hlen, Hal. split.
      * exact (length_nonempty _ 23 Hlen).
      * eapply all_chars_weaken, Hal. apply alnum_subdomain_char.
  - destruct (label_after_shape j (first_candidate m e).2) as [Hlen Hal]. split.
    + exact (length_nonempty _ 23 Hlen).
    + eapply all_chars_weaken, Hal. apply alnum_subdomain_char.
Qed.

Lemma strip_cons_nonblank c s : PyStr.is_space c = false -> PyStr.strip (String c s) <> "".
Proof.
  intros Hc. unfold PyStr.strip. cbn [PyStr.lstrip]. rewrite Hc. cbn [PyStr.rstrip].
  destruct (PyStr.rstrip s); [|done]. by rewrite Hc.
Qed.

(** The host built from a label over [a-z0-9-] and a base domain that is
    free of commas and not blank. *)
Lemma join_host_ok label base :
  PyStr.all_chars subdomain_char label = true ->
  PyStr.all_chars (not_char ",") base = true -> PyStr.strip base <> "" ->
  _join_host label base <> "" /\ clean_host (filed_host (_join_host label base)).
Proof.
  intros Hl Hc Hb. unfold _join_host.
  rewrite strip_fixed by (eapply all_chars_weaken, Hl; apply subdomain_char_not_space).
  assert (Hbase : base <> "") by (by intros ->).
  destruct (PyStr.truthy label) eqn:Ht; cbn [negb].
  - apply truthy_true in Hbase. rewrite Hbase.
    destruct label as [|c label]; [done|]. rewrite append_cons. split; [done|].
    apply filed_host_clean.
    + rewrite <- append_cons, !all_chars_app, Hc.
      rewrite (all_chars_weaken _ _ _ subdomain_char_not_comma Hl). done.
    + apply strip_cons_nonblank. cbn [PyStr.all_chars] in Hl.
      apply andb_prop in Hl as [Hl _]. apply subdomain_char_not_space in Hl.
      unfold not_space in Hl. by destruct (PyStr.is_space c).
  - split; [done|]. by apply filed_host_clean.
Qed.

(** A completed [create_alias]: the row, its hosts and the store. *)
Lemma create_alias_ok env base sub m st r st' :
  create_alias env base sub m st = (inr r, st') ->
  let ce := first_candidate m (rng st) in
  exists v k, r = Some v
    /\ base_domain (row v) = _normalize_domain base
    /\ _normalize_domain base <> ""
    /\ subdomain (row v) = _normalize_subdomain (Some sub)
    /\ masked_subdomain (row v) = attempt ce.1 ce.2 k
    /\ target_host v = _join_host (subdomain (row v)) (base_domain (row v))
    /\ masked_host v = _join_host (masked_subdomain (row v)) (base_domain (row v))
    /\ store st' = _sync_ssl_hosts env [target_host v; masked_host v]
                     (with_aliases (domain_aliases (store st) ++ [row v]) (store st)).
Proof.
  intros Hres ce.
  destruct (decide (_normalize_domain base = "")) as [Hb|Hb].
  { apply (create_alias_empty_base env base sub m st) in Hb. congruence. }
  destruct (create_alias_unrolled env base sub m st Hb) as (k & _ & _ & _ & Hun).
  rewrite Hun in Hres. destruct (_masked_exists _ _ _); [done|].
  apply persist_alias_ok in Hres as (v & -> & Hbase & Hsub & Hm & Ht & Hmh & _ & Hst).
  exists v, k. rewrite Hbase, Hsub, Hm, Ht, Hmh.
  repeat (split; [first [reflexivity|assumption]|]). exact Hst.
Qed.

(** The host list after a completed call on a well-formed base domain. *)
Lemma create_alias_hosts env base sub m st v st' :
  create_alias env base sub m st = (inr (Some v), st') ->
  PyStr.contains_char "," (base_domain (row v)) = false ->
  PyStr.strip (base_domain (row v)) <> "" ->
  host_set env (store st')
  = {[filed_host (target_host v); filed_host (masked_host v)]} ∪ host_set env (store st).
Proof.
  intros Hres Hcomma Hblank.
  apply create_alias_ok in Hres as (v' & k & [= <-] & Hb & _ & Hs & Hm & Ht & Hmh & ->).
  rewrite contains_char_all in Hcomma. apply negb_false_iff in Hcomma.
  destruct (join_host_ok (subdomain (row v)) (base_domain (row v))) as [Ht1 Ht2];
    [rewrite Hs; apply normalize_subdomain_chars|done..|].
  destruct (join_host_ok (masked_subdomain (row v)) (base_domain (row v))) as [Hm1 Hm2];
    [rewrite Hm; apply attempt_label|done..|].
  rewrite sync_ssl_hosts_spec, host_set_with_aliases by (by rewrite ?Ht, ?Hmh).
  done.
Qed.

(** The setting is left alone when both hosts are already filed. *)
Lemma create_alias_idle env base sub m st v st' :
  create_alias env base sub m st = (inr (Some v), st') ->
  {[filed_host (target_host v); filed_host (masked_host v)]} ⊆ host_set env (store st) ->
  app_settings (store st') = app_settings (store st).
Proof.
  intros Hres Hsub.
  apply create_alias_ok in Hres as (v' & k & [= <-] & _ & _ & _ & _ & _ & _ & ->).
  rewrite sync_ssl_hosts_idle; [done|].
  intros h Hh _. rewrite host_set_with_aliases. set_solver.
Qed.

Lemma alnum_not_space c : alnum_lower c = true -> not_space c = true.
Proof. intros H. by apply subdomain_char_not_space, alnum_subdomain_char. Qed.

Lemma alnum_not_upper c : alnum_lower c = true -> not_upper c = true.
Proof. intros H. by apply subdomain_char_not_upper, alnum_subdomain_char. Qed.

(** The masked host of a generated label under [example.com] is filed as is. *)
Lemma filed_generated_host label :
  label <> "" -> PyStr.all_chars alnum_lower label = true ->
  filed_host (_join_host label "example.com") = label ++ ".example.com".
Proof.
  intros Hne Hal. unfold _join_host, filed_host.
  rewrite (strip_fixed label) by (eapply all_chars_weaken, Hal; apply alnum_not_space).
  apply truthy_true in Hne. rewrite Hne. cbn [negb PyStr.truthy String.eqb].
  change ("." ++ "example.com") with ".example.com".
  rewrite strip_fixed, lower_fixed; [done|..]; rewrite all_chars_app.
  - by rewrite (all_chars_weaken _ _ _ alnum_not_upper Hal).
  - by rewrite (all_chars_weaken _ _ _ alnum_not_space Hal).
Qed.

(** C4, as stated, at the base domain ["a,b.com"]: the call completes, yet the
    host list read back from the setting does not hold the target host, which
    the comma has cut in two. *)
Lemma C4_comma_splits_host :
  exists v st',
    create_alias "" "a,b.com" "x" None demo_reg = (inr (Some v), st')
    /\ target_host v = "x.a,b.com"
    /\ filed_host (target_host v) ∉ host_set "" (store st').
Proof.
  eexists _, _. split; [vm_compute; reflexivity|]. split; [reflexivity|].
  unfold host_set. rewrite elem_of_list_to_set. intros Hin. vm_compute in Hin.
  repeat (apply elem_of_cons in Hin as [Hin|Hin]; [discriminate|]).
  by apply elem_of_nil in Hin.
Qed.

(** C4 (amended): after a completed [create_alias] whose normalised base
    domain holds no comma and is not blank, the host list read from the
    [ssl_hosts] setting (split at commas, items trimmed and lowercased, blank
    items dropped) is the previous list plus the trimmed, lowercased target
    host and masked host; the setting is left untouched when both were
    already listed. For [create_alias("https://Example.com/", "Login Page",
    None)] the row has base domain [example.com], subdomain [login-page], a
    masked label of 24 characters, and both hosts are listed afterwards. *)
Theorem C4_alias_hosts_propagated :
  (forall env base sub m st v st',
      create_alias env base sub m st = (inr (Some v), st') ->
      PyStr.contains_char "," (base_domain (row v)) = false ->
      PyStr.strip (base_domain (row v)) <> "" ->
      let t := filed_host (target_host v) in
      let mh := filed_host (masked_host v) in
      t ∈ host_set env (store st') /\ mh ∈ host_set env (store st')
      /\ host_set env (store st') = {[t; mh]} ∪ host_set env (store st)
      /\ ({[t; mh]} ⊆ host_set env (store st) ->
          app_settings (store st') = app_settings (store st)))
  /\ (forall env st r st',
      create_alias env "https://Example.com/" "Login Page" None st = (inr r, st') ->
      exists v, r = Some v
        /\ base_domain (row v) = "example.com" /\ subdomain (row v) = "login-page"
        /\ String.length (masked_subdomain (row v)) = 24
        /\ "login-page.example.com" ∈ host_set env (store st')
        /\ (masked_subdomain (row v) ++ ".example.com") ∈ host_set env (store st')).
Proof.
  split.
  - intros env base sub m st v st' Hres Hcomma Hblank t mh.
    pose proof (create_alias_hosts _ _ _ _ _ _ _ Hres Hcomma Hblank) as Hset.
    fold t mh in Hset. rewrite Hset.
    split; [set_solver|]. split; [set_solver|]. split; [done|].
    by apply (create_alias_idle env base sub m st).
  - intros env st r st' Hres.
    pose proof Hres as (v & k & -> & Hb & _ & Hs & Hm & Ht & Hmh & _)%create_alias_ok.
    exists v. split; [done|].
    change (_normalize_domain "https://Example.com/") with "example.com" in Hb.
    change (_normalize_subdomain (Some "Login Page")) with "login-page" in Hs.
    assert (Hshape : String.length (masked_subdomain (row v)) = 24
                     /\ PyStr.all_chars alnum_lower (masked_subdomain (row v)) = true).
    { rewrite Hm. by apply generated_attempt_shape. }
    destruct Hshape as [Hlen Hal].
    pose proof (create_alias_hosts _ _ _ _ _ _ _ Hres) as Hset.
    rewrite Hb in Hset. specialize (Hset eq_refl ltac:(done)).
    rewrite Ht, Hmh, Hs, Hb in Hset.
    change (filed_host (_join_host "login-page" "example.com"))
      with "login-page.example.com" in Hset.
    rewrite filed_generated_host in Hset; [|exact (length_nonempty _ 23 Hlen)|exact Hal].
    rewrite Hset. do 3 (split; [done|]). split.
    + apply elem_of_union_l, elem_of_union_l, elem_of_singleton. reflexivity.
    + apply elem_of_union_l, elem_of_union_r, elem_of_singleton. reflexivity.
Qed.

(** C4 at work on the scenario of the design, from an empty store. *)
Lemma C4_alias_hosts_propagated_witness :
  exists v st',
    create_alias "" "https://Example.com/" "Login Page" None demo_reg = (inr (Some v), st')
    /\ filed_host (target_host v) ∈ host_set "" (store st')
    /\ filed_host (masked_host v) ∈ host_set "" (store st')
    /\ "login-page.example.com" ∈ host_set "" (store st').
Proof.
  destruct (create_alias "" "https://Example.com/" "Login Page" None demo_reg)
    as [[err|[v|]] st'] eqn:Hres;
    [vm_compute in Hres; discriminate| |vm_compute in Hres; discriminate].
  exists v, st'. split; [done|].
  assert (Hbase : base_domain (row v) = "example.com").
  { destruct (proj2 C4_alias_hosts_propagated "" demo_reg _ _ Hres)
      as (v' & [= <-] & Hb & _). exact Hb. }
  destruct (proj1 C4_alias_hosts_propagated "" _ _ _ _ _ _ Hres) as (Ht & Hm & _).
  - by rewrite Hbase.
  - by rewrite Hbase.
  - split; [exact Ht|]. split; [exact Hm|].
    destruct (proj2 C4_alias_hosts_propagated "" demo_reg _ _ Hres)
      as (v' & _ & _ & _ & _ & Hlogin & _). exact Hlogin.
Defined.

(** ** The public-IP resolver *)

Lemma fetch_from_returns net pre ep post ip last_error :
  Forall (fun x => failed (outcome_of net x)) pre ->
  outcome_of net ep = Returned ip ->
  fetch_from net (pre ++ ep :: post) last_error = (inr ip, map fst (pre ++ [ep])).
Proof.
  intros Hpre Hep. revert last_error.
  induction Hpre as [|[url field] pre Hx _ IH]; intros last_error.
  - destruct ep as [url field]. cbn. unfold outcome_of in Hep. cbn in Hep. by rewrite Hep.
  - cbn [app fetch_from]. unfold outcome_of in Hx. cbn [fst snd] in Hx.
    destruct (try_endpoint field (net url)); [done|..]; by rewrite IH.
Qed.






(** ** The tunnel manager *)

Section TunnelFacts.
Context {P : Type}.
Variable spawn : list string -> nat -> P -> proc_outcome * P.
Variable CONNECTOR_SCRIPT : string.


(** A run that does not complete raises and leaves the log alone. *)
Lemma run_and_log_incomplete command (w : tunnel_world P) outcome p :
  spawn command 120 (t_procs w) = (outcome, p) ->
  (outcome = TimedOut \/ outcome = NotStarted) ->
  exists e w', _run_and_log spawn command w = (inl e, w')
    /\ t_store w' = t_store w.
Proof.
  intros Hrun [-> | ->]; unfold _run_and_log, bind, run_command; rewrite Hrun; eauto.
Qed.


End TunnelFacts.



(** ** The DNS synchroniser *)

Lemma filter_not_seen (seen : gset string) (x : string) (l : list string) :
  filter (fun y => y ∉ {[x]} ∪ seen) l = filter (fun y => y ∉ seen) (filter (fun y => y ≠ x) l).
Proof.
  rewrite list_filter_filter. apply list_filter_iff. intros y. set_solver.
Qed.

Lemma filter_seen_member (seen : gset string) (x : string) (l : list string) :
  x ∈ seen ->
  filter (fun y => y ∉ seen) (filter (fun y => y ≠ x) l) = filter (fun y => y ∉ seen) l.
Proof.
  intros Hx. rewrite list_filter_filter. apply list_filter_iff. intros y. set_solver.
Qed.

(** The second loop keeps the first occurrence of every host not yet seen. *)
Lemma dedupe_first_seen cleaned seen deduped :
  dedupe cleaned seen deduped
  = (deduped ++ filter (fun y => y ∉ seen) (first_seen cleaned))%list.
Proof.
  revert seen deduped. induction cleaned as [|x rest IH]; intros seen deduped.
  - cbn. by rewrite app_nil_r.
  - cbn [dedupe first_seen]. destruct (decide (x ∈ seen)) as [Hx|Hx]; rewrite IH.
    + rewrite filter_cons_False by (intros Hn; by apply Hn).
      by rewrite filter_seen_member.
    + rewrite filter_cons_True by done.
      rewrite <- app_assoc. cbn [app]. by rewrite filter_not_seen.
Qed.

Lemma filter_all (P : string -> Prop) `{!forall x, Decision (P x)} (l : list string) :
  (forall x, P x) -> filter P l = l.
Proof.
  intros HP. induction l as [|x l IH]; [done|].
  rewrite filter_cons_True by done. by rewrite IH.
Qed.

Lemma determine_hosts_first_seen cfg hosts :
  _determine_hosts cfg (Some hosts) = first_seen (clean_hosts hosts).
Proof.
  unfold _determine_hosts. rewrite dedupe_first_seen. cbn [app].
  apply filter_all. set_solver.
Qed.

Lemma first_seen_elem x l : x ∈ first_seen l <-> x ∈ l.
Proof.
  induction l as [|y l IH]; [done|]. cbn [first_seen].
  rewrite !elem_of_cons, list_elem_of_filter, IH.
  destruct (decide (x = y)); naive_solver.
Qed.

Lemma first_seen_NoDup l : NoDup (first_seen l).
Proof.
  induction l as [|y l IH]; cbn [first_seen]; [constructor|].
  constructor; [|by apply NoDup_filter].
  rewrite list_elem_of_filter. naive_solver.
Qed.

Lemma clean_hosts_elem h hosts :
  h ∈ clean_hosts hosts
  <-> exists raw, raw ∈ hosts /\ PyStr.strip raw <> "" /\ h = PyStr.lower (PyStr.strip raw).
Proof.
  unfold clean_hosts. rewrite list_elem_of_fmap. split.
  - intros (v & -> & Hv). apply list_elem_of_In, filter_In in Hv as [Hv Ht%truthy_true].
    apply list_elem_of_In, list_elem_of_fmap in Hv as (raw & -> & Hraw). eauto.
  - intros (raw & Hraw & Hne & ->). exists (PyStr.strip raw). split; [done|].
    apply list_elem_of_In, filter_In. split; [|by apply truthy_true].
    apply list_elem_of_In, list_elem_of_fmap. eauto.
Qed.

Section DnsFacts.
Context {W : Type}.
Variable send : api_request -> W -> api_reply * W.

(** One request, once the headers are available. *)
Lemma request_cases cfg headers method path params json (w : dns_world W) :
  build_headers cfg = inr headers ->
  let q := {| q_method := method; q_path := path; q_headers := headers;
              q_params := params; q_json := json |} in
  let reply := (send q (peer w)).1 in
  _request send cfg method path params json w
  = (match reply with
     | NoReply reason => inl (TransportError reason)
     | BadBody => inl (TransportError "response body is not JSON")
     | ApiReply ok data =>
         if negb ok || negb (d_success data)
         then inl (CloudflareError (format_errors data)) else inr data
     end,
     {| peer := (send q (peer w)).2; exchanges := exchanges w ++ [(q, reply)] |}).
Proof.
  intros Hh q reply. unfold _request. rewrite Hh. fold q. subst reply.
  destruct (send q (peer w)) as [[reason| |ok data] p]; cbn [fst snd]; try done.
  by destruct (negb ok || negb (d_success data)).
Qed.




End DnsFacts.



Section DnsRuns.
Context {W : Type}.
Variable send : api_request -> W -> api_reply * W.






End DnsRuns.



(** C3, as stated, on a store into which an alias has just been propagated:
    the setting lists the alias host, the synchroniser called without hosts
    resolves the list of the configuration only. *)
Lemma C3_setting_not_consulted :
  let st' := (create_alias "" "https://Example.com/" "Login Page" None demo_reg).2 in
  "login-page.example.com" ∈ _default_host_list "" (store st')
  /\ _determine_hosts token_cfg None = ["static.example.org"]
  /\ _determine_hosts token_cfg None
     <> _determine_hosts token_cfg (Some (_default_host_list "" (store st'))).
Proof.
  cbn zeta. split; [|split].
  - vm_compute. set_solver.
  - reflexivity.
  - vm_compute. discriminate.
Qed.

(** C3 (amended): without a hosts argument the synchroniser falls back to
    the host list of the provider configuration (read from the environment at
    start-up): it resolves the trimmed, lowercased first occurrences of that
    list and behaves as if it had been handed that list; the settings store
    is not among its inputs. *)
Theorem C3_default_hosts_from_config cfg :
  _determine_hosts cfg None = first_seen (clean_hosts (ssl_hosts cfg))
  /\ (forall h, h ∈ _determine_hosts cfg None
        <-> exists raw, raw ∈ ssl_hosts cfg /\ PyStr.strip raw <> ""
              /\ h = PyStr.lower (PyStr.strip raw))
  /\ (forall W (send : api_request -> W -> api_reply * W) ip proxied (w : dns_world W),
        sync_a_records send cfg ip None proxied w
        = sync_a_records send cfg ip (Some (ssl_hosts cfg)) proxied w).
Proof.
  assert (H : _determine_hosts cfg None = first_seen (clean_hosts (ssl_hosts cfg)))
    by apply (determine_hosts_first_seen cfg (ssl_hosts cfg)).
  split; [done|]. split; [|done].
  intros h. by rewrite H, first_seen_elem, clean_hosts_elem.
Qed.




(** C8, as stated, on an empty address with no zone configured: the call
    fails with the validation error of the address, not with the
    configuration error of the zone. *)
Lemma C8_empty_ip_before_zone :
  sync_a_records zone_send no_zone_cfg "" (Some ["a.example.com"]) None fresh_zone
  = (inl (CloudflareError MSG_NO_IP), fresh_zone)
  /\ error_kind_of (CloudflareError MSG_NO_IP) = ValidationError
  /\ error_kind_of (CloudflareError MSG_NO_IP) <> ConfigurationError.
Proof. repeat split. vm_compute. discriminate. Qed.

(** C8 (amended): the checks come in a fixed order. An empty address fails
    with the validation error; otherwise a missing zone fails with the
    configuration error; otherwise an empty resolved host list fails with
    the validation error; in each case nothing at all is exchanged with the
    provider. *)
Theorem C8_sync_guards {W : Type} (send : api_request -> W -> api_reply * W)
    cfg ip hosts proxied (w : dns_world W) :
  (ip = "" ->
     sync_a_records send cfg ip hosts proxied w = (inl (CloudflareError MSG_NO_IP), w))
  /\ (ip <> "" -> opt_truthy (zone_id cfg) = false ->
     sync_a_records send cfg ip hosts proxied w = (inl (CloudflareError MSG_NO_ZONE), w))
  /\ (ip <> "" -> opt_truthy (zone_id cfg) = true -> _determine_hosts cfg hosts = [] ->
     sync_a_records send cfg ip hosts proxied w = (inl (CloudflareError MSG_NO_HOSTS), w))
  /\ error_kind_of (CloudflareError MSG_NO_IP) = ValidationError
  /\ error_kind_of (CloudflareError MSG_NO_ZONE) = ConfigurationError
  /\ error_kind_of (CloudflareError MSG_NO_HOSTS) = ValidationError.
Proof.
  split; [|split; [|split]].
  - intros ->. reflexivity.
  - intros Hip%truthy_true Hz. unfold sync_a_records, require_zone_id. by rewrite Hip, Hz.
  - intros Hip%truthy_true Hz Hd. unfold sync_a_records, require_zone_id.
    by rewrite Hip, Hz, Hd.
  - repeat split.
Qed.

(** C8 at work: the three guards, each on its own. *)
Lemma C8_sync_guards_witness :
  sync_a_records zone_send token_cfg "" (Some ["a.example.com"]) None fresh_zone
  = (inl (CloudflareError MSG_NO_IP), fresh_zone)
  /\ sync_a_records zone_send no_zone_cfg "203.0.113.5" (Some ["a.example.com"]) None
       fresh_zone
     = (inl (CloudflareError MSG_NO_ZONE), fresh_zone)
  /\ sync_a_records zone_send token_cfg "203.0.113.5" (Some ["  "; ""]) None fresh_zone
     = (inl (CloudflareError MSG_NO_HOSTS), fresh_zone).
Proof.
  split; [|split].
  - apply (C8_sync_guards zone_send token_cfg "" (Some ["a.example.com"]) None fresh_zone).
    reflexivity.
  - apply (C8_sync_guards zone_send no_zone_cfg "203.0.113.5" (Some ["a.example.com"])
             None fresh_zone); [discriminate|reflexivity].
  - apply (C8_sync_guards zone_send token_cfg "203.0.113.5" (Some ["  "; ""]) None
             fresh_zone); [discriminate|reflexivity|reflexivity].
Defined.

(** * Further properties of the services *)

(** ** The settings store *)

(** [update_settings] followed by [get_settings]: the key written reads
    back, every other key reads as before. *)
Theorem settings_update_then_get env k v d :
  get_settings env (update_settings [(k, v)] d) !! k = Some v
  /\ (forall k', k' <> k ->
        get_settings env (update_settings [(k, v)] d) !! k' = get_settings env d !! k').
Proof.
  unfold get_settings, update_settings. cbn [fold_left with_settings app_settings fst snd].
  split.
  - apply lookup_union_Some_l. by rewrite lookup_omap, lookup_insert_eq.
  - intros k' Hk. rewrite !lookup_union, !lookup_omap, lookup_insert_ne by done. done.
Qed.

(** A key that is absent from the table, or stored as NULL, reads as its
    built-in default; a key with neither reads as nothing, and
    [get_setting] then yields the caller's default. *)
Theorem settings_fall_back_to_defaults env k d :
  (app_settings d !! k = None \/ app_settings d !! k = Some None) ->
  get_settings env d !! k = DEFAULT_SETTINGS env !! k
  /\ (DEFAULT_SETTINGS env !! k = None ->
      forall fallback, get_setting env k fallback d = fallback).
Proof.
  intros Hk.
  assert (H : get_settings env d !! k = DEFAULT_SETTINGS env !! k).
  { unfold get_settings. rewrite lookup_union, lookup_omap.
    destruct Hk as [-> | ->]; cbn; by destruct (DEFAULT_SETTINGS env !! k). }
  split; [done|]. intros Hd fallback. unfold get_setting. by rewrite H, Hd.
Qed.

Lemma settings_fall_back_to_defaults_witness :
  get_settings "" demo_db !! "ssl_hosts" = Some "sanexgroup.com".
Proof.
  rewrite (proj1 (settings_fall_back_to_defaults "" "ssl_hosts" demo_db (or_introl eq_refl))).
  reflexivity.
Defined.

(** ** Generated labels *)

(** [generate_masked_subdomain(n)] yields [max(8, n)] characters, each a
    lowercase letter or a digit, and takes that many draws. *)
Theorem generate_masked_subdomain_length n e :
  String.length (generate_masked_subdomain n e).1 = Z.to_nat (Z.max 8 n)
  /\ PyStr.all_chars alnum_lower (generate_masked_subdomain n e).1 = true
  /\ cursor (generate_masked_subdomain n e).2 = (cursor e + Z.to_nat (Z.max 8 n))%nat
  /\ (8 <= String.length (generate_masked_subdomain n e).1)%nat.
Proof.
  destruct (generate_masked_subdomain_shape n e) as [Hlen Hal].
  split; [done|]. split; [done|]. split.
  - unfold generate_masked_subdomain. by rewrite choices_rng.
  - rewrite Hlen. lia.
Qed.

(** ** Invariants of the alias table *)

Lemma persist_alias_fresh env base real masked d e r st' :
  persist_alias env base real masked d e = (inr r, st') ->
  exists v, r = Some v
    /\ domain_aliases (store st') = (domain_aliases d ++ [row v])%list
    /\ existsb (alias_conflict (row v)) (domain_aliases d) = false.
Proof.
  intros Hres. pose proof Hres as (v & -> & Hb & Hs & Hm & _ & _ & Hrows & _)%persist_alias_ok.
  exists v. split; [done|]. split; [done|].
  unfold persist_alias in Hres. destruct (uuid4_hex e) as [id e'].
  unfold insert_alias in Hres.
  destruct (existsb _ (domain_aliases d)) eqn:Hc; [done|].
  injection Hres as Hr Hst. subst st'. cbn [store] in Hrows.
  rewrite sync_ssl_hosts_aliases in Hrows. cbn [with_aliases domain_aliases] in Hrows.
  apply app_inv_head in Hrows. injection Hrows as <-. done.
Qed.

Lemma no_conflict_fresh r rows :
  existsb (alias_conflict r) rows = false ->
  (alias_id r ∉ map alias_id rows)
  /\ (masked_subdomain r ∉ map masked_subdomain rows)
  /\ ((base_domain r, subdomain r) ∉ map (fun x => (base_domain x, subdomain x)) rows).
Proof.
  induction rows as [|x rows IH]; cbn [existsb map].
  - intros _. repeat split; apply not_elem_of_nil.
  - intros [Hx Hrows]%orb_false_elim. destruct (IH Hrows) as (H1 & H2 & H3).
    unfold alias_conflict in Hx.
    apply orb_false_elim in Hx as [[Hid Hm]%orb_false_elim Hp].
    apply bool_decide_eq_false in Hid, Hm.
    repeat split; rewrite not_elem_of_cons; (split; [|done]).
    + congruence.
    + congruence.
    + intros [= Hb Hs]. apply andb_false_iff in Hp as [Hp|Hp];
        apply bool_decide_eq_false in Hp; congruence.
Qed.

Lemma create_alias_fresh env base sub m st r st' :
  create_alias env base sub m st = (inr r, st') ->
  exists v, r = Some v
    /\ domain_aliases (store st') = (domain_aliases (store st) ++ [row v])%list
    /\ existsb (alias_conflict (row v)) (domain_aliases (store st)) = false.
Proof.
  intros Hres.
  destruct (decide (_normalize_domain base = "")) as [Hb|Hb].
  { apply (create_alias_empty_base env base sub m st) in Hb. congruence. }
  destruct (create_alias_unrolled env base sub m st Hb) as (k & _ & _ & _ & Hun).
  rewrite Hun in Hres. destruct (_masked_exists _ _ _); [done|].
  by apply persist_alias_fresh in Hres.
Qed.



(** ** Deleting an alias *)

Lemma find_filter_other (id id' : string) rows :
  id' <> id ->
  find (fun x => bool_decide (alias_id x = id')) (filter (fun x => alias_id x ≠ id) rows)
  = find (fun x => bool_decide (alias_id x = id')) rows.
Proof.
  intros Hne. induction rows as [|x rows IH]; [done|].
  destruct (decide (alias_id x = id)) as [Hx|Hx].
  - rewrite filter_cons_False by (intros H; by apply H). cbn [find].
    rewrite bool_decide_eq_false_2 by congruence. done.
  - rewrite filter_cons_True by done. cbn [find]. by rewrite IH.
Qed.

Lemma find_filter_same (id : string) rows :
  find (fun x => bool_decide (alias_id x = id)) (filter (fun x => alias_id x ≠ id) rows)
  = None.
Proof.
  induction rows as [|x rows IH]; [done|].
  destruct (decide (alias_id x = id)) as [Hx|Hx].
  - by rewrite filter_cons_False by (intros H; by apply H).
  - rewrite filter_cons_True by done. cbn [find].
    by rewrite bool_decide_eq_false_2 by done.
Qed.

Lemma filter_absent_id (id : string) rows :
  id ∉ map alias_id rows -> filter (fun x => alias_id x ≠ id) rows = rows.
Proof.
  induction rows as [|x rows IH]; [done|]. cbn [map].
  rewrite not_elem_of_cons. intros [Hx Hrows].
  rewrite filter_cons_True by congruence. by rewrite IH.
Qed.

(** [delete_alias] removes the row of that identifier and nothing else: the
    other rows are found as before and the settings, with the hosts that
    were propagated, stay as they are. *)
Theorem delete_alias_removes_row env id d :
  fetch_alias id (delete_alias id d) = None
  /\ (forall id', id' <> id -> fetch_alias id' (delete_alias id d) = fetch_alias id' d)
  /\ app_settings (delete_alias id d) = app_settings d
  /\ host_set env (delete_alias id d) = host_set env d
  /\ cloudflared_logs (delete_alias id d) = cloudflared_logs d.
Proof.
  unfold fetch_alias, delete_alias. cbn [with_aliases domain_aliases].
  split; [apply find_filter_same|].
  split; [intros id' Hne; by apply find_filter_other|]. done.
Qed.

(** Deleting the alias just created gives back the alias table as it was,
    while the host list keeps the two hosts the creation propagated. *)
Theorem create_then_delete_alias env base sub m st v st' :
  create_alias env base sub m st = (inr (Some v), st') ->
  domain_aliases (delete_alias (alias_id (row v)) (store st')) = domain_aliases (store st)
  /\ host_set env (delete_alias (alias_id (row v)) (store st')) = host_set env (store st').
Proof.
  intros Hres. split; [|done].
  apply create_alias_fresh in Hres as (v' & [= <-] & Hrows & Hfresh).
  apply no_conflict_fresh in Hfresh as (Hid & _ & _).
  unfold delete_alias. cbn [with_aliases domain_aliases]. rewrite Hrows, filter_app.
  rewrite filter_absent_id by done.
  rewrite filter_cons_False by (intros H; by apply H). by rewrite app_nil_r.
Qed.

Lemma create_then_delete_alias_witness :
  exists v st',
    create_alias "" "https://Example.com/" "Login Page" None demo_reg = (inr (Some v), st')
    /\ domain_aliases (delete_alias (alias_id (row v)) (store st')) = []
    /\ "login-page.example.com" ∈ host_set "" (delete_alias (alias_id (row v)) (store st')).
Proof.
  destruct (create_alias "" "https://Example.com/" "Login Page" None demo_reg)
    as [[err|[v|]] st'] eqn:Hres;
    [vm_compute in Hres; discriminate| |vm_compute in Hres; discriminate].
  exists v, st'. split; [done|].
  destruct (create_then_delete_alias _ _ _ _ _ _ _ Hres) as [Hrows Hhosts].
  split; [exact Hrows|]. rewrite Hhosts.
  vm_compute in Hres. injection Hres as _ <-.
  unfold host_set. rewrite elem_of_list_to_set. vm_compute.
  apply list_elem_of_further, list_elem_of_here.
Defined.

(** ** Duplicates refused by the store *)

Lemma persist_alias_conflict env base real masked d e x :
  x ∈ domain_aliases d ->
  (masked_subdomain x = masked \/ (base_domain x = base /\ subdomain x = real)) ->
  exists e', persist_alias env base real masked d e
             = (inl IntegrityError, {| store := d; rng := e' |}).
Proof.
  intros Hx Hdup. unfold persist_alias. destruct (uuid4_hex e) as [id e'].
  unfold insert_alias.
  assert (existsb (alias_conflict {| alias_id := id; base_domain := base;
                                     subdomain := real; masked_subdomain := masked;
                                     created_at := clock d |}) (domain_aliases d) = true)
    as ->; [|eauto].
  apply existsb_exists. exists x. split; [by apply list_elem_of_In|].
  unfold alias_conflict. cbn [alias_id base_domain subdomain masked_subdomain].
  destruct Hdup as [Hm|[Hb Hs]].
  - rewrite (bool_decide_eq_true_2 _ Hm). by rewrite orb_true_r.
  - rewrite (bool_decide_eq_true_2 _ Hb), (bool_decide_eq_true_2 _ Hs).
    by rewrite orb_true_r.
Qed.

(** When the table already holds the (base domain, subdomain) pair of the
    call, [create_alias] cannot complete: it raises the collision error or
    the store's [IntegrityError], and the store stays as it was. *)
Theorem create_alias_refuses_known_pair env base sub m st x :
  x ∈ domain_aliases (store st) ->
  _normalize_domain base <> "" ->
  base_domain x = _normalize_domain base ->
  subdomain x = _normalize_subdomain (Some sub) ->
  exists e st', create_alias env base sub m st = (inl e, st')
    /\ (e = AliasCollisionError \/ e = IntegrityError)
    /\ store st' = store st.
Proof.
  intros Hx Hb Hbase Hsub.
  destruct (create_alias_unrolled env base sub m st Hb) as (k & _ & _ & _ & ->).
  destruct (_masked_exists _ _ _); [eauto 6|].
  edestruct (persist_alias_conflict env) as [e' ->]; [exact Hx|right; eauto|].
  eauto 6.
Qed.

Lemma create_alias_refuses_known_pair_witness :
  exists e st', create_alias "" "Example.com" "WWW" None one_alias_reg = (inl e, st')
    /\ store st' = store one_alias_reg.
Proof.
  destruct (create_alias_refuses_known_pair "" "Example.com" "WWW" None one_alias_reg
              {| alias_id := "abb2b9c0c7ce45dca3eaf1f8ff060d14";
                 base_domain := "example.com"; subdomain := "www";
                 masked_subdomain := "dkry5cjqx4bipw3ahov29gnu"; created_at := 0 |})
    as (e & st' & Hres & _ & Hst).
  - vm_compute. apply list_elem_of_here.
  - discriminate.
  - reflexivity.
  - reflexivity.
  - eauto.
Defined.

(** A masked label that is already used under another base domain passes
    the collision check, which looks at the same base domain only, and is
    then refused by the unique index on the label alone. *)
Theorem create_alias_label_taken_elsewhere env base sub label st x :
  x ∈ domain_aliases (store st) ->
  _normalize_domain base <> "" ->
  _normalize_subdomain (Some label) <> "" ->
  masked_subdomain x = _normalize_subdomain (Some label) ->
  _masked_exists (_normalize_domain base) (_normalize_subdomain (Some label)) (store st)
  = false ->
  exists st', create_alias env base sub (Some label) st = (inl IntegrityError, st')
    /\ store st' = store st.
Proof.
  intros Hx Hb Hlabel Hm Hfree. unfold create_alias.
  apply truthy_true in Hb. rewrite Hb. cbn [negb].
  assert (Hsup : supplied_label (Some label) = _normalize_subdomain (Some label)).
  { unfold supplied_label. destruct (PyStr.truthy label) eqn:Ht; [done|].
    apply truthy_false in Ht. subst label. done. }
  unfold first_candidate. rewrite Hsup.
  apply truthy_true in Hlabel. rewrite Hlabel. cbn [negb]. rewrite Hfree.
  edestruct (persist_alias_conflict env) as [e' ->]; [exact Hx|left; exact Hm|].
  rewrite Hfree. eexists. split; reflexivity.
Qed.

Lemma create_alias_label_taken_elsewhere_witness :
  exists st',
    create_alias "" "example.org" "mail" (Some "dkry5cjqx4bipw3ahov29gnu") one_alias_reg
    = (inl IntegrityError, st').
Proof.
  destruct (create_alias_label_taken_elsewhere "" "example.org" "mail"
              "dkry5cjqx4bipw3ahov29gnu" one_alias_reg
              {| alias_id := "abb2b9c0c7ce45dca3eaf1f8ff060d14";
                 base_domain := "example.com"; subdomain := "www";
                 masked_subdomain := "dkry5cjqx4bipw3ahov29gnu"; created_at := 0 |})
    as (st' & Hres & _).
  - vm_compute. apply list_elem_of_here.
  - discriminate.
  - discriminate.
  - reflexivity.
  - reflexivity.
  - eauto.
Defined.

(** ** The resolved host list *)

Lemma filter_keeps_others (x : string) (l : list string) :
  x ∉ l -> filter (fun y => y ≠ x) l = l.
Proof.
  induction l as [|y l IH]; [done|]. rewrite not_elem_of_cons. intros [Hy Hl].
  rewrite filter_cons_True by congruence. by rewrite IH.
Qed.

Lemma first_seen_fixed l : NoDup l -> first_seen l = l.
Proof.
  induction 1 as [|x l Hx Hl IH]; [done|]. cbn [first_seen].
  by rewrite IH, filter_keeps_others.
Qed.

Lemma clean_hosts_fixed l :
  Forall (fun h => h <> "" /\ PyStr.strip h = h /\ PyStr.lower h = h) l ->
  clean_hosts l = l.
Proof.
  unfold clean_hosts. induction 1 as [|h l (Hne & Hs & Hl) _ IH]; [done|].
  cbn [map List.filter]. rewrite Hs. apply truthy_true in Hne. rewrite Hne.
  cbn [map]. by rewrite Hl, IH.
Qed.

(** The list [_determine_hosts] resolves has no repetition and holds only
    non-empty, trimmed, lowercase hosts; resolving it again changes nothing. *)
Theorem determine_hosts_stable cfg hosts :
  let resolved := _determine_hosts cfg (Some hosts) in
  NoDup resolved
  /\ Forall (fun h => h <> "" /\ PyStr.strip h = h /\ PyStr.lower h = h) resolved
  /\ _determine_hosts cfg (Some resolved) = resolved.
Proof.
  cbn zeta. rewrite !determine_hosts_first_seen.
  assert (Hclean : Forall (fun h => h <> "" /\ PyStr.strip h = h /\ PyStr.lower h = h)
                     (first_seen (clean_hosts hosts))).
  { apply Forall_forall. intros h Hh%first_seen_elem%clean_hosts_elem.
    destruct Hh as (raw & _ & Hne & ->). split; [by apply lower_nonempty|].
    split; [by rewrite strip_lower, strip_idem|apply lower_idem]. }
  split; [apply first_seen_NoDup|]. split; [done|].
  rewrite clean_hosts_fixed by done.
  apply first_seen_fixed, first_seen_NoDup.
Qed.

(** ** The resolver's reach *)

Lemma fetch_from_prefix net endpoints last_error :
  exists k, (k <= List.length endpoints)%nat
    /\ (fetch_from net endpoints last_error).2 = take k (map fst endpoints)
    /\ (forall e, (fetch_from net endpoints last_error).1 = inl e -> k = List.length endpoints)
    /\ (endpoints <> [] -> (1 <= k)%nat).
Proof.
  revert last_error. induction endpoints as [|[url field] rest IH]; intros last_error.
  - exists 0%nat. cbn. split; [lia|]. split; [done|]. split; [done|]. done.
  - cbn [fetch_from]. destruct (try_endpoint field (net url)) as [ip|exc|].
    + exists 1%nat. cbn. split; [lia|]. split; [done|]. split; [done|]. lia.
    + destruct (IH (Some exc)) as (k & Hk & Hurls & Herr & _).
      destruct (fetch_from net rest (Some exc)) as [res urls]. cbn [fst snd] in *.
      exists (S k). cbn. rewrite Hurls. split; [lia|]. split; [done|].
      split; [intros e He; f_equal; eauto|lia].
    + destruct (IH last_error) as (k & Hk & Hurls & Herr & _).
      destruct (fetch_from net rest last_error) as [res urls]. cbn [fst snd] in *.
      exists (S k). cbn. rewrite Hurls. split; [lia|]. split; [done|].
      split; [intros e He; f_equal; eauto|lia].
Qed.

(** [fetch_public_ip] contacts the configured services in their order and
    stops at some point: the URLs contacted are the first [k] of the list,
    with [k] between 1 and 4, and a failure has contacted all four. *)
Theorem fetch_public_ip_contacts_prefix net :
  exists k, (1 <= k <= 4)%nat
    /\ (fetch_public_ip net).2 = take k (map fst IP_ENDPOINTS)
    /\ (forall e, (fetch_public_ip net).1 = inl e -> k = 4%nat).
Proof.
  destruct (fetch_from_prefix net IP_ENDPOINTS None) as (k & Hk & Hurls & Herr & Hpos).
  exists k. cbn [List.length IP_ENDPOINTS] in Hk. split; [|done].
  split; [by apply Hpos|done].
Qed.

(** A raw-text service that answers with a status other than 4xx/5xx ends
    the search with its trimmed body, whatever the body is: a blank body is
    returned as the empty string and the next service is not asked. *)
Theorem fetch_public_ip_returns_raw_body net status_code text json :
  failed (outcome_of net ("https://api.ipify.org?format=json", Some "ip")) ->
  failed (outcome_of net ("https://ifconfig.co/json", Some "ip")) ->
  net "https://checkip.amazonaws.com" = Reply status_code text json ->
  raise_for_status status_code = false ->
  fetch_public_ip net = (inr (PyStr.strip text), take 3 (map fst IP_ENDPOINTS)).
Proof.
  intros H1 H2 Hreply Hstatus.
  apply (fetch_from_returns net (take 2 IP_ENDPOINTS) ("https://checkip.amazonaws.com", None)
           (drop 3 IP_ENDPOINTS)).
  - repeat constructor; done.
  - unfold outcome_of, try_endpoint. cbn [fst snd]. by rewrite Hreply, Hstatus.
Qed.

Lemma fetch_public_ip_returns_raw_body_witness :
  fetch_public_ip net_blank_body = (inr "", take 3 (map fst IP_ENDPOINTS)).
Proof.
  apply (fetch_public_ip_returns_raw_body net_blank_body 200
           ("  " ++ String "010" "") None); reflexivity || exact I.
Defined.

(** ** The tunnel manager's guards and status checks *)

(** [install_connector] checks the token before the script: an empty token
    raises [ValueError] and a missing script raises [RuntimeError] naming
    the script, in both cases with nothing launched and nothing logged. *)
Theorem install_connector_guards {P : Type}
    (spawn : list string -> nat -> P -> proc_outcome * P) (script : string)
    token (w : tunnel_world P) :
  (token = "" ->
     install_connector spawn script token w = (inl (ValueError MSG_EMPTY_TOKEN), w))
  /\ (token <> "" -> t_script_exists w = false ->
     install_connector spawn script token w
     = (inl (RuntimeError (MSG_NO_SCRIPT ++ script)), w)).
Proof.
  split.
  - intros ->. reflexivity.
  - intros Ht%truthy_true Hs. unfold install_connector. by rewrite Ht, Hs.
Qed.

Lemma install_connector_guards_witness :
  install_connector echo_spawn "/srv/scripts/setup.sh" "tok" echo_world
  = (inl (RuntimeError (MSG_NO_SCRIPT ++ "/srv/scripts/setup.sh")), echo_world).
Proof.
  apply (install_connector_guards echo_spawn "/srv/scripts/setup.sh" "tok" echo_world);
    [discriminate|reflexivity].
Defined.

(** When the version check cannot be started or exceeds its timeout,
    [run_status_checks] raises at once: the process-list check is never
    launched and no audit entry is written, not even for the failed check. *)
Theorem status_checks_stop_at_first_failure {P : Type}
    (spawn : list string -> nat -> P -> proc_outcome * P) (w : tunnel_world P) outcome p :
  spawn ["cloudflared"; "--version"] 120 (t_procs w) = (outcome, p) ->
  outcome = TimedOut \/ outcome = NotStarted ->
  exists e w',
    run_status_checks spawn w = (inl e, w')
    /\ (e = TimeoutExpired \/ e = OSError)
    /\ t_launched w' = (t_launched w ++ [["cloudflared"; "--version"]])%list
    /\ t_store w' = t_store w.
Proof.
  intros Hrun Hout. unfold run_status_checks. cbn [run_checks].
  rewrite bool_decide_eq_false_2 by set_solver.
  unfold bind at 1. unfold _run_and_log, bind at 1, run_command. rewrite Hrun.
  destruct Hout as [-> | ->]; eexists _, _; (split; [reflexivity|]); auto.
Qed.

Lemma status_checks_stop_at_first_failure_witness :
  exists w',
    run_status_checks no_binary_spawn echo_world = (inl OSError, w')
    /\ t_launched w' = [["cloudflared"; "--version"]]
    /\ cloudflared_logs (t_store w') = [].
Proof.
  destruct (status_checks_stop_at_first_failure no_binary_spawn echo_world NotStarted tt)
    as (e & w' & Hres & _ & Hl & Hs); [reflexivity|by right|].
  exists w'. vm_compute in Hres. injection Hres as <- <-. done.
Defined.

(** ** A synchronisation cut short *)

Section DnsFailures.
Context {W : Type}.
Variable send : api_request -> W -> api_reply * W.

(** With the headers available, a request sends exactly itself, and it
    returns exactly when the reply is accepted. *)
Lemma request_outcome cfg headers method path params json (w : dns_world W) r w' :
  build_headers cfg = inr headers ->
  _request send cfg method path params json w = (r, w') ->
  exists q rep, exchanges w' = (exchanges w ++ [(q, rep)])%list
    /\ match r with
       | inr _ => accepted_reply rep
       | inl _ => ~ accepted_reply rep
       end.
Proof.
  intros Hh. rewrite (request_cases send cfg headers) by done.
  set (q := {| q_method := method; q_path := path; q_headers := headers;
               q_params := params; q_json := json |}).
  intros [= <- <-]. exists q, (send q (peer w)).1. split; [done|].
  destruct (send q (peer w)).1 as [reason| |ok data].
  - intros (data & Hd & _). done.
  - intros (data & Hd & _). done.
  - destruct ok, (d_success data) eqn:Hs; cbn.
    + by exists data.
    + intros (d' & Hd & Hs'). congruence.
    + intros (d' & Hd & Hs'). congruence.
    + intros (d' & Hd & Hs'). congruence.
Qed.

Lemma upsert_hosts_failure cfg headers zone ip pv hosts acc (w : dns_world W) e w' :
  build_headers cfg = inr headers ->
  upsert_hosts send cfg zone ip pv hosts acc w = (inl e, w') ->
  exists log q rep,
    exchanges w' = (exchanges w ++ log ++ [(q, rep)])%list
    /\ Forall (fun ex => accepted_reply ex.2) log
    /\ ~ accepted_reply rep.
Proof.
  intros Hh. revert acc w. induction hosts as [|host rest IH]; intros acc w; [done|].
  cbn [upsert_hosts]. unfold bind at 1. unfold _find_dns_record, bind at 1.
  destruct (_request send cfg GET _ _ None w) as [[e1|data] w1] eqn:Hget;
    apply (request_outcome cfg headers) in Hget as (q1 & rep1 & Hlog1 & Hrep1); try done.
  { intros [= <- <-]. exists [], q1, rep1. done. }
  cbn [ret].
  assert (Hstep : forall method path action,
             (run! _request send cfg method path []
                     (Some {| p_type := "A"; p_name := host; p_content := ip;
                              p_ttl := 120; p_proxied := pv |}) in
              upsert_hosts send cfg zone ip pv rest
                (acc ++ [{| sr_host := host; sr_action := action |}])) w1
             = (inl e, w') ->
             exists log q rep,
               exchanges w' = (exchanges w ++ log ++ [(q, rep)])%list
               /\ Forall (fun ex => accepted_reply ex.2) log
               /\ ~ accepted_reply rep).
  { intros method path action. unfold bind at 1.
    destruct (_request send cfg method path [] _ w1) as [[e2|d2] w2] eqn:Hput;
      apply (request_outcome cfg headers) in Hput as (q2 & rep2 & Hlog2 & Hrep2); try done.
    - intros [= <- <-]. exists [(q1, rep1)], q2, rep2.
      split; [by rewrite Hlog2, Hlog1, <- app_assoc|]. split; [|done].
      by constructor.
    - intros (log & q & rep & Hlog & Hall & Hbad)%IH.
      exists ((q1, rep1) :: (q2, rep2) :: log), q, rep.
      split; [by rewrite Hlog, Hlog2, Hlog1, <- !app_assoc|]. split; [|done].
      by repeat constructor. }
  destruct (d_result data) as [|[|kv rr] ?]; apply Hstep.
Qed.

End DnsFailures.

(** When a synchronisation that passed its guards fails, the exchange that
    failed is the last one made: every exchange before it was accepted by
    the provider and stays in effect, and nothing is sent for the hosts that
    follow. *)
Theorem sync_stops_at_first_failure {W : Type} (send : api_request -> W -> api_reply * W)
    cfg ip hosts proxied (w : dns_world W) e w' :
  can_authenticate cfg = true ->
  sync_a_records send cfg ip hosts proxied w = (inl e, w') ->
  (w' = w /\ error_kind_of e <> ProviderError /\ error_kind_of e <> OtherError)
  \/ exists log q rep,
       exchanges w' = (exchanges w ++ log ++ [(q, rep)])%list
       /\ Forall (fun ex => accepted_reply ex.2) log
       /\ ~ accepted_reply rep.
Proof.
  intros Hauth. unfold can_authenticate in Hauth.
  destruct (build_headers cfg) as [|headers] eqn:Hh; [done|].
  unfold sync_a_records, require_zone_id.
  destruct (negb (PyStr.truthy ip)).
  { intros [= <- <-]. left. split; [done|]. split; vm_compute; discriminate. }
  destruct (opt_truthy (zone_id cfg)).
  2:{ intros [= <- <-]. left. split; [done|]. split; vm_compute; discriminate. }
  destruct (_determine_hosts cfg hosts) as [|h rest].
  { intros [= <- <-]. left. split; [done|]. split; vm_compute; discriminate. }
  intros Hres. right. by eapply upsert_hosts_failure.
Qed.

Lemma sync_stops_at_first_failure_witness :
  exists w',
    sync_a_records down_send token_cfg "203.0.113.5"
      (Some ["a.example.com"; "b.example.com"]) None {| peer := tt; exchanges := [] |}
    = (inl (TransportError "connection refused"), w')
    /\ List.length (exchanges w') = 1%nat.
Proof.
  destruct (sync_a_records down_send token_cfg "203.0.113.5"
              (Some ["a.example.com"; "b.example.com"]) None
              {| peer := tt; exchanges := [] |}) as [[e|res] w'] eqn:Hres;
    [|vm_compute in Hres; discriminate].
  destruct (sync_stops_at_first_failure down_send token_cfg "203.0.113.5"
              (Some ["a.example.com"; "b.example.com"]) None
              {| peer := tt; exchanges := [] |} e w' eq_refl Hres)
    as [[_ [_ Hk]]|(log & q & rep & _)].
  - vm_compute in Hres. injection Hres as <- _. exfalso. apply Hk. reflexivity.
  - exists w'. vm_compute in Hres. injection Hres as <- <-. done.
Defined.

(** ** What [_sync_ssl_hosts] writes *)

(** [_sync_ssl_hosts] either leaves the store as it is or rewrites the
    [ssl_hosts] setting, and that setting only, as the [", "]-joined list of
    the old hosts and the new ones, sorted and without repetition. *)
Theorem sync_ssl_hosts_writes_sorted env hosts d :
  _sync_ssl_hosts env hosts d = d
  \/ exists L,
       _sync_ssl_hosts env hosts d
       = with_settings (<["ssl_hosts" := Some (PyStr.join ", " L)]> (app_settings d)) d
       /\ Sorted String.le L /\ NoDup L
       /\ (forall h, h ∈ L <->
             h ∈ host_set env d
             \/ exists raw, raw ∈ hosts /\ raw <> "" /\ h = filed_host raw).
Proof.
  unfold _sync_ssl_hosts.
  set (normalized := map _ (List.filter PyStr.truthy hosts)).
  assert (Hnorm : forall h, h ∈ normalized
                    <-> exists raw, raw ∈ hosts /\ raw <> "" /\ h = filed_host raw).
  { intros h. unfold normalized. rewrite list_elem_of_fmap. split.
    - intros (raw & -> & Hraw). apply list_elem_of_In, filter_In in Hraw as [Hraw Ht].
      exists raw. split; [by apply list_elem_of_In|]. split; [by apply truthy_true|done].
    - intros (raw & Hraw & Hne & ->). exists raw. split; [done|].
      apply list_elem_of_In, filter_In. split; [by apply list_elem_of_In|].
      by apply truthy_true. }
  destruct normalized as [|n0 rest] eqn:En; [by left|]. fold (host_set env d).
  pose proof (merge_hosts_set (n0 :: rest) (host_set env d) false) as Hset.
  destruct (merge_hosts (n0 :: rest) (host_set env d) false) as [cur [|]]; [|by left].
  cbn [fst] in Hset. right. exists (merge_sort String.le (elements cur)).
  split; [done|]. split; [apply Sorted_merge_sort; apply _|]. split.
  - rewrite merge_sort_Permutation. apply NoDup_elements.
  - intros h. rewrite sorted_elements_elem, Hset, elem_of_union, elem_of_list_to_set, Hnorm.
    tauto.
Qed.

(** ** Certificate orders and the settings store *)

Lemma default_host_list_lower env d :
  parse_hosts (default "" (get_settings env d !! "ssl_hosts"))
  = map PyStr.lower (_default_host_list env d).
Proof.
  unfold parse_hosts, _default_host_list.
  generalize (PyStr.split "," (default "" (get_settings env d !! "ssl_hosts"))).
  intros l. induction l as [|x l IH]; [done|]. cbn [List.filter].
  destruct (PyStr.truthy (PyStr.strip x)) eqn:Hs.
  - assert (PyStr.truthy x = true) as ->.
    { apply truthy_true. intros ->. done. }
    cbn [andb map]. by rewrite IH.
  - by rewrite andb_false_r.
Qed.

Lemma default_host_list_trimmed env d :
  Forall (fun h => PyStr.strip h = h /\ h <> "") (_default_host_list env d).
Proof.
  unfold _default_host_list. apply Forall_fmap, Forall_forall.
  intros x [_ Hx%truthy_true]%list_elem_of_In%filter_In. cbn.
  split; [apply strip_idem|done].
Qed.

Lemma trimmed_hosts_kept l :
  Forall (fun h => PyStr.strip h = h /\ h <> "") l -> trimmed_hosts l = l.
Proof.
  unfold trimmed_hosts. induction 1 as [|h l [Hs Hne%truthy_true] _ IH]; [done|].
  cbn [List.filter]. rewrite Hs, Hne. cbn [andb map]. by rewrite Hs, IH.
Qed.

(** Unlike the DNS synchroniser, a certificate order without hosts takes the
    host list of the settings store when that list is not empty, so it
    covers, up to letter case, every host the setting lists; explicit hosts
    win over it and the configuration's list is the last resort. *)
Theorem certificate_hosts_from_settings env cfg d :
  (_default_host_list env d <> [] ->
     certificate_hosts env cfg None d = _default_host_list env d
     /\ host_set env d = list_to_set (map PyStr.lower (certificate_hosts env cfg None d)))
  /\ (_default_host_list env d = [] ->
     certificate_hosts env cfg None d = trimmed_hosts (ssl_hosts cfg))
  /\ (forall h hs, certificate_hosts env cfg (Some (h :: hs)) d
                   = trimmed_hosts (h :: hs))
  /\ certificate_hosts env cfg (Some []) d = certificate_hosts env cfg None d.
Proof.
  split; [|split; [|split]].
  - intros Hne. assert (Hc : certificate_hosts env cfg None d = _default_host_list env d).
    { unfold certificate_hosts. destruct (_default_host_list env d) as [|x l] eqn:Hl; [done|].
      rewrite <- Hl. apply trimmed_hosts_kept, default_host_list_trimmed. }
    split; [done|]. unfold host_set. by rewrite Hc, default_host_list_lower.
  - intros Hnil. unfold certificate_hosts. by rewrite Hnil.
  - done.
  - done.
Qed.

Lemma certificate_hosts_from_settings_witness :
  certificate_hosts "" token_cfg None (store one_alias_reg)
  = ["dkry5cjqx4bipw3ahov29gnu.example.com"; "sanexgroup.com"; "www.example.com"].
Proof.
  rewrite (proj1 (proj1 (certificate_hosts_from_settings "" token_cfg (store one_alias_reg))
                    ltac:(vm_compute; discriminate))).
  vm_compute. reflexivity.
Defined.

(** An order whose host list comes out empty is refused before the zone is
    looked at and before anything is sent; with hosts but no zone the order
    is refused by the zone check, again with nothing sent. *)
Theorem order_certificate_guards {W : Type} (send_order : cert_request -> W -> api_reply * W)
    env cfg hosts days (w : cert_world W) :
  (certificate_hosts env cfg hosts (c_store w) = [] ->
     order_advanced_certificate send_order env cfg hosts days w
     = (inl (CloudflareError MSG_SSL_NO_HOSTS), w))
  /\ (certificate_hosts env cfg hosts (c_store w) <> [] ->
      opt_truthy (zone_id cfg) = false ->
      order_advanced_certificate send_order env cfg hosts days w
      = (inl (CloudflareError MSG_NO_ZONE), w))
  /\ (forall r w', order_advanced_certificate send_order env cfg hosts days w = (r, w') ->
        forall q rep, (q, rep) ∈ c_sent w' -> (q, rep) ∉ c_sent w ->
          c_type (cq_json q) = "advanced" /\ c_validation_method (cq_json q) = "txt"
          /\ c_validity_days (cq_json q) = days
          /\ c_hosts (cq_json q) = certificate_hosts env cfg hosts (c_store w)).
Proof.
  unfold order_advanced_certificate, require_zone_id. split; [|split].
  - by intros ->.
  - intros Hne Hz. destruct (certificate_hosts _ _ _ _); [done|]. by rewrite Hz.
  - intros r w' Hres q rep Hin Hnew.
    destruct (certificate_hosts env cfg hosts (c_store w)) as [|h hs] eqn:Hc.
    { injection Hres as _ <-. done. }
    destruct (opt_truthy (zone_id cfg)); [|injection Hres as _ <-; done].
    destruct (build_headers cfg) as [e|headers]; [injection Hres as _ <-; done|].
    destruct (send_order _ (c_peer w)) as [reply p].
    assert (Hsent : c_sent w' = (c_sent w ++ [({| cq_path := "/zones/" ++ default "" (zone_id cfg) ++ "/ssl/certificate_packs";
                                                 cq_headers := headers;
                                                 cq_json := {| c_type := "advanced"; c_hosts := h :: hs;
                                                               c_validation_method := "txt";
                                                               c_validity_days := days |} |}, reply)])%list).
    { destruct reply as [reason| |ok data];
        [| |destruct (negb ok || negb (d_success data))]; by injection Hres as _ <-. }
    rewrite Hsent in Hin. apply elem_of_app in Hin as [Hin|Hin]; [done|].
    apply list_elem_of_singleton in Hin. injection Hin as -> _. done.
Qed.

Lemma order_certificate_guards_witness :
  order_advanced_certificate (fun q (p : unit) => (NoReply "down", p)) "" no_zone_cfg
    None 90 {| c_store := demo_db; c_peer := tt; c_sent := [] |}
  = (inl (CloudflareError MSG_NO_ZONE),
     {| c_store := demo_db; c_peer := tt; c_sent := [] |}).
Proof.
  apply (proj1 (proj2 (order_certificate_guards (fun q (p : unit) => (NoReply "down", p))
                         "" no_zone_cfg None 90
                         {| c_store := demo_db; c_peer := tt; c_sent := [] |}))).
  - vm_compute. discriminate.
  - reflexivity.
Defined.

(** ** Reading the audit log back *)

#[global] Instance newer_first_trans : Transitive newer_first.
Proof. intros a b c. unfold newer_first. lia. Qed.

#[global] Instance newer_first_total : Total newer_first.
Proof. intros a b. unfold newer_first. lia. Qed.





